(** * Expired-listings worker: CSV normalizer, urgency rubric, skip-trace client

    A shallow embedding of [src/index.js] (parseCSV, parseCSVLine,
    calculateUrgencyScore, skipTraceWithTracerfy, parseTracerfyResults,
    processExpiredListings, sendSlackSummary) and the properties of the
    specification that concern them, followed by further properties of
    the same code.

    Conventions of the embedding.
    - A JavaScript string is a [string]; code units are restricted to
      0..255.  The white space recognised by [String.prototype.trim], by
      the regular-expression class [\s] and by [parseInt] is, within that
      range, the code units 9-13, 32 and 160.
    - A JavaScript number that holds an integer is a [Z]; [NaN] is the
      [None] of an [option Z].  The rubric's points are rationals ([Q]):
      every partial sum is a multiple of 1/2 below 16, on which IEEE
      double arithmetic is exact.
    - A JavaScript object used as a dictionary is a [gmap] keyed by
      strings; [undefined] is the [None] of a lookup.
    - The host (clock, date parser, network) is an explicit argument. *)

From Stdlib Require Import ZArith QArith Qround String Ascii List Lia Bool.
From Stdlib Require Import Sorted.
From stdpp Require Import base option gmap strings list fin_maps.
Import ListNotations.

Local Open Scope string_scope.
Local Open Scope Z_scope.

(** ** JavaScript string primitives *)

Definition code (c : ascii) : N := N_of_ascii c.

(** White space of [trim], [\s] and [parseInt]. *)
Definition isWhiteSpace (c : ascii) : bool :=
  let n := code c in
  ((9 <=? n) && (n <=? 13) || (n =? 32) || (n =? 160))%N.

Fixpoint trimStart (s : string) : string :=
  match s with
  | EmptyString => EmptyString
  | String c rest => if isWhiteSpace c then trimStart rest else s
  end.

Fixpoint rev_string (s acc : string) : string :=
  match s with
  | EmptyString => acc
  | String c rest => rev_string rest (String c acc)
  end.

Definition trimEnd (s : string) : string :=
  rev_string (trimStart (rev_string s "")) "".

(** [s.trim()] *)
Definition trim (s : string) : string := trimEnd (trimStart s).

(** A string is truthy when it is not empty. *)
Definition truthy (s : string) : bool :=
  match s with EmptyString => false | _ => true end.

(** [s.split(sep)] for a one-character separator: at least one piece. *)
Fixpoint split_loop (sep : ascii) (s current : string) : list string :=
  match s with
  | EmptyString => [current]
  | String c rest =>
      if Ascii.eqb c sep then current :: split_loop sep rest ""
      else split_loop sep rest (current ++ String c "")
  end.

Definition split (sep : ascii) (s : string) : list string :=
  split_loop sep s "".

(** [parts.join(sep)] *)
Fixpoint join (sep : string) (parts : list string) : string :=
  match parts with
  | [] => ""
  | [p] => p
  | p :: rest => p ++ sep ++ join sep rest
  end.

Definition dquote : ascii := ascii_of_N 34.
Definition comma : ascii := ascii_of_N 44.
Definition newline : ascii := ascii_of_N 10.
Definition space : ascii := ascii_of_N 32.

(** [s.replace(/^"|"$/g, "")]: one leading and one trailing double quote
    are removed. *)
Definition dropLeadingQuote (s : string) : string :=
  match s with
  | String c rest => if Ascii.eqb c dquote then rest else s
  | EmptyString => s
  end.

Definition dropTrailingQuote (s : string) : string :=
  rev_string (dropLeadingQuote (rev_string s "")) "".

Definition stripQuotes (s : string) : string :=
  dropTrailingQuote (dropLeadingQuote s).

(** [s.toLowerCase()] on code units 0..255. *)
Definition lowerChar (c : ascii) : ascii :=
  let n := code c in
  if ((65 <=? n) && (n <=? 90) ||
      (192 <=? n) && (n <=? 222) && negb (n =? 215))%N
  then ascii_of_N (n + 32) else c.

Fixpoint toLowerCase (s : string) : string :=
  match s with
  | EmptyString => EmptyString
  | String c rest => String (lowerChar c) (toLowerCase rest)
  end.

(** [s.includes(t)] *)
Fixpoint startsWith (t s : string) : bool :=
  match t, s with
  | EmptyString, _ => true
  | String a t', String b s' => Ascii.eqb a b && startsWith t' s'
  | String _ _, EmptyString => false
  end.

Fixpoint includes (s t : string) : bool :=
  startsWith t s ||
  match s with
  | EmptyString => false
  | String _ rest => includes rest t
  end.

(** [s.split(" ")[0]] *)
Definition firstToken (s : string) : string :=
  hd "" (split space s).

(** [s.replace(/\s+/g, "_")]: every maximal run of white space becomes
    one underscore. *)
Fixpoint underscoreSpaces (s : string) (inRun : bool) : string :=
  match s with
  | EmptyString => EmptyString
  | String c rest =>
      if isWhiteSpace c
      then (if inRun then underscoreSpaces rest true
            else String "_" (underscoreSpaces rest true))
      else String c (underscoreSpaces rest false)
  end.

(** [s.replace(/[,$]/g, "")] *)
Fixpoint stripCurrency (s : string) : string :=
  match s with
  | EmptyString => EmptyString
  | String c rest =>
      if Ascii.eqb c comma || Ascii.eqb c "$"%char
      then stripCurrency rest else String c (stripCurrency rest)
  end.

(** ** [parseInt] with no radix argument *)

Definition digitValue (c : ascii) : option Z :=
  let n := Z.of_N (code c) in
  if (48 <=? n) && (n <=? 57) then Some (n - 48)
  else if (97 <=? n) && (n <=? 122) then Some (n - 87)
  else if (65 <=? n) && (n <=? 90) then Some (n - 55)
  else None.

(** The longest prefix of digits of the radix, read as a number; [None]
    when there is no digit. *)
Fixpoint readDigits (radix : Z) (s : string) (acc : option Z) : option Z :=
  match s with
  | EmptyString => acc
  | String c rest =>
      match digitValue c with
      | Some d =>
          if d <? radix
          then readDigits radix rest (Some (radix * default 0 acc + d))
          else acc
      | None => acc
      end
  end.

Definition parseInt (s : string) : option Z :=
  let s1 := trimStart s in
  let '(sign, s2) :=
    match s1 with
    | String "-" r => (-1, r)
    | String "+" r => (1, r)
    | _ => (1, s1)
    end in
  let '(radix, s3) :=
    match s2 with
    | String "0" (String "x" r) => (16, r)
    | String "0" (String "X" r) => (16, r)
    | _ => (10, s2)
    end in
  Z.mul sign <$> readDigits radix s3 None.

(** [n || d] for a number [n]: [NaN] and zero are falsy. *)
Definition orNum (n : option Z) (d : Z) : Z :=
  match n with
  | Some z => if z =? 0 then d else z
  | None => d
  end.

(** ** CSV parsing (HAR MLS format) *)

(** The body of the [for] loop of [parseCSVLine]: [values], [current] and
    [inQuotes] are the loop's variables. *)
Fixpoint parseCSVLine_loop (line : string) (values : list string)
    (current : string) (inQuotes : bool) : list string :=
  match line with
  | EmptyString => values ++ [trim current]
  | String char rest =>
      if Ascii.eqb char dquote
      then parseCSVLine_loop rest values current (negb inQuotes)
      else if Ascii.eqb char comma && negb inQuotes
      then parseCSVLine_loop rest (values ++ [trim current]) "" inQuotes
      else parseCSVLine_loop rest values (current ++ String char "") inQuotes
  end.

Definition parseCSVLine (line : string) : list string :=
  map stripQuotes (parseCSVLine_loop line [] "" false).

(** [obj[key] = value] on an object created by the literal [{}]: the key
    [__proto__] reaches the prototype setter, which ignores a string. *)
Definition objSet (key value : string) (obj : gmap string string)
    : gmap string string :=
  if String.eqb key "__proto__" then obj else <[key := value]> obj.

(** [values[index] || ""] *)
Definition valueAt (values : list string) (index : nat) : string :=
  default "" (values !! index).

(** [headers.forEach((header, index) => { row[header] = values[index] || ""; })] *)
Fixpoint zipRow (headers : list string) (index : nat) (values : list string)
    (row : gmap string string) : gmap string string :=
  match headers with
  | [] => row
  | header :: rest =>
      zipRow rest (S index) values (objSet header (valueAt values index) row)
  end.

(** [row[key] || ""] *)
Definition field (row : gmap string string) (key : string) : string :=
  default "" (row !! key).

(** The normalized record built by [parseCSV]. *)
Record Listing := {
  address : string;
  city : string;
  zip : string;
  state : string;
  price : string;
  originalListDate : string;
  expiredDate : string;
  daysOnMarket : string;
  cumulativeDaysOnMarket : string;
  bedrooms : string;
  bathrooms : string;
  sqft : string;
  yearBuilt : string;
  listingAgent : string;
  listingOffice : string;
  mlsNumber : string;
  propertyType : string;
  status : string
}.

Definition addressColumns : list string :=
  ["Street Number"; "Street Dir Prefix"; "Street Name"; "Street Suffix";
   "Street Dir Suffix"; "Unit Number"].

(** [p && p.trim()] as a filter predicate; [undefined] is falsy. *)
Definition keepPart (p : option string) : bool :=
  match p with
  | Some s => truthy s && truthy (trim s)
  | None => false
  end.

(** The address assembled from HAR's split fields:
    [[...].filter(p => p && p.trim()).join(" ")]. *)
Definition addressParts (row : gmap string string) : string :=
  join " "
    (map (default "")
         (List.filter keepPart (map (fun k => row !! k) addressColumns))).

Definition normalize (row : gmap string string) : Listing :=
  {| address := addressParts row;
     city := field row "City/Location";
     zip := field row "Zip Code";
     state := "TX";
     price := field row "List Price";
     originalListDate := field row "List Date";
     expiredDate := field row "Last Change Timestamp";
     daysOnMarket := field row "DOM";
     cumulativeDaysOnMarket := field row "CDOM";
     bedrooms := field row "Bedrooms";
     bathrooms := field row "Baths Total";
     sqft := field row "Building SqFt";
     yearBuilt := field row "Year Built";
     listingAgent := field row "List Agent Full Name";
     listingOffice := field row "List Office Name";
     mlsNumber := field row "MLS Number";
     propertyType := field row "Property Type";
     status := field row "Status" |}.

(** [csvText.split("\n").filter(line => line.trim())] *)
Definition nonBlankLines (csvText : string) : list string :=
  List.filter (fun line => truthy (trim line)) (split newline csvText).

(** [lines[0].split(",").map(h => h.trim().replace(/^"|"$/g, ""))] *)
Definition headerCells (headerLine : string) : list string :=
  map (fun h => stripQuotes (trim h)) (split comma headerLine).

(** One data line of [parseCSV], up to the normalized record. *)
Definition rowOfLine (headers : list string) (line : string)
    : gmap string string :=
  zipRow headers 0 (parseCSVLine line) ∅.

(** One iteration of the [for] loop of [parseCSV]: [listings] is the
    accumulator that [push] extends. *)
Definition parseCSV_step (headers : list string) (listings : list Listing)
    (line : string) : list Listing :=
  let normalized := normalize (rowOfLine headers line) in
  if truthy (address normalized) then listings ++ [normalized] else listings.

Definition parseCSV (csvText : string) : list Listing :=
  match nonBlankLines csvText with
  | [] | [_] => []
  | headerLine :: dataLines =>
      fold_left (parseCSV_step (headerCells headerLine)) dataLines []
  end.

(** ** Urgency scoring rubric (10-point system) *)

(** What [calculateUrgencyScore] reads from its host: [Date.now()] in
    milliseconds, [new Date().getFullYear()], and the time value of
    [new Date(s)], [None] when [s] is not a date ([getTime()] is [NaN]). *)
Record Host := {
  Date_now : Z;
  getFullYear : Z;
  Date_parse : string -> option Z
}.

Definition msPerDay : Z := 1000 * 60 * 60 * 24.

(** [daysSinceExpired]: a [Date] object is truthy even when invalid, so
    999 is used only for an empty [expiredDate]. *)
Definition daysSinceExpired (host : Host) (listing : Listing) : option Z :=
  if truthy (expiredDate listing)
  then match Date_parse host (expiredDate listing) with
       | Some time => Some ((Date_now host - time) / msPerDay)
       | None => None
       end
  else Some 999.

(** [d <= n] on a number that may be [NaN]. *)
Definition leNum (d : option Z) (n : Z) : bool :=
  match d with
  | Some z => z <=? n
  | None => false
  end.

(** [x > y] on rationals. *)
Definition Qgtb (x y : Q) : bool := negb (Qle_bool x y).

(** Factor 1: motivation level, from days on market. *)
Definition motivationPoints (dom : Z) : Q :=
  if dom >=? 180 then 2
  else if dom >=? 90 then 3 # 2
  else if dom >=? 45 then 1
  else 1 # 2.

(** Factor 2: frustration freshness, from days since expiration. *)
Definition freshnessPoints (days : option Z) : Q :=
  if leNum days 3 then 2
  else if leNum days 7 then 3 # 2
  else if leNum days 14 then 1
  else if leNum days 30 then 1 # 2
  else 0.

(** Factor 3: repeat failure, CDOM against DOM. *)
Definition repeatFailurePoints (cdom dom : Z) : Q :=
  if cdom >? dom * 2 then 2
  else if Qgtb (inject_Z cdom) (inject_Z dom * (3 # 2)) then 3 # 2
  else if cdom >? dom then 1
  else 1 # 2.

(** Factor 4: price point appeal. *)
Definition pricePoints (price : Z) : Q :=
  if (price >? 0) && (price <? 150000) then 2
  else if (price >=? 150000) && (price <? 250000) then 3 # 2
  else if (price >=? 250000) && (price <? 400000) then 1
  else if (price >=? 400000) && (price <? 600000) then 1 # 2
  else 0.

(** Factor 5: conversion probability, property age and bedroom count. *)
Definition agePoints (propertyAge : Z) : Q :=
  if propertyAge <=? 15 then 1
  else if propertyAge <=? 30 then 1 # 2
  else 0.

Definition bedroomPoints (beds : Z) : Q :=
  if (beds >=? 3) && (beds <=? 4) then 1
  else if (beds =? 2) || (beds =? 5) then 1 # 2
  else 0.

(** [Math.round(x)]: the nearest integer, halves upwards. *)
Definition Math_round (x : Q) : Q := inject_Z (Qfloor (x + (1 # 2))).

(** [Math.min(x, y)] *)
Definition Math_min (x y : Q) : Q := if Qle_bool x y then x else y.

(** The numbers parsed at the head of [calculateUrgencyScore]. *)
Definition domOf (listing : Listing) : Z :=
  orNum (parseInt (daysOnMarket listing)) 0.
Definition cdomOf (listing : Listing) : Z :=
  orNum (parseInt (cumulativeDaysOnMarket listing)) 0.
Definition priceOf (listing : Listing) : Z :=
  orNum (parseInt (stripCurrency (price listing))) 0.
Definition propertyAgeOf (host : Host) (listing : Listing) : Z :=
  getFullYear host - orNum (parseInt (yearBuilt listing)) 2000.
Definition bedsOf (listing : Listing) : Z :=
  orNum (parseInt (bedrooms listing)) 0.

(** The sum accumulated in [score], in the order of the source. *)
Definition rawScore (host : Host) (listing : Listing) : Q :=
  let score := 0%Q in
  let score := (score + motivationPoints (domOf listing))%Q in
  let score := (score + freshnessPoints (daysSinceExpired host listing))%Q in
  let score := (score + repeatFailurePoints (cdomOf listing) (domOf listing))%Q in
  let score := (score + pricePoints (priceOf listing))%Q in
  let score := (score + agePoints (propertyAgeOf host listing))%Q in
  let score := (score + bedroomPoints (bedsOf listing))%Q in
  score.

Definition calculateUrgencyScore (host : Host) (listing : Listing) : Q :=
  Math_min 10 (Math_round (rawScore host listing * 10) / 10).

(** *** A date parser for the ISO date-only form

    [yyyy-mm-dd] is the one form every engine must read the same way, as
    midnight UTC of that day; the other forms are left to the engine.
    This instance reads that form and nothing else. *)

Definition daysFromCivil (y m d : Z) : Z :=
  let y' := if m <=? 2 then y - 1 else y in
  let era := y' / 400 in
  let yoe := y' - era * 400 in
  let doy := (153 * (if m >? 2 then m - 3 else m + 9) + 2) / 5 + d - 1 in
  let doe := yoe * 365 + yoe / 4 - yoe / 100 + doy in
  era * 146097 + doe - 719468.

Definition isLeap (y : Z) : bool :=
  (y mod 4 =? 0) && (negb (y mod 100 =? 0) || (y mod 400 =? 0)).

Definition daysInMonth (y m : Z) : Z :=
  if m =? 2 then (if isLeap y then 29 else 28)
  else if (m =? 4) || (m =? 6) || (m =? 9) || (m =? 11) then 30
  else 31.

Definition decimalDigit (c : ascii) : option Z :=
  let n := Z.of_N (code c) in
  if (48 <=? n) && (n <=? 57) then Some (n - 48) else None.

Definition Date_parse_iso (s : string) : option Z :=
  match s with
  | String y1 (String y2 (String y3 (String y4 (String "-"
      (String m1 (String m2 (String "-"
        (String d1 (String d2 EmptyString))))))))) =>
      a ← decimalDigit y1; b ← decimalDigit y2;
      c ← decimalDigit y3; e ← decimalDigit y4;
      f ← decimalDigit m1; g ← decimalDigit m2;
      h ← decimalDigit d1; i ← decimalDigit d2;
      let y := 1000 * a + 100 * b + 10 * c + e in
      let m := 10 * f + g in
      let d := 10 * h + i in
      if (1 <=? m) && (m <=? 12) && (1 <=? d) && (d <=? daysInMonth y m)
      then Some (daysFromCivil y m d * msPerDay)
      else None
  | _ => None
  end.

(** ** Tracerfy skip tracing *)

(** The values a listing object or a JSON payload holds; [JObject] stands
    for a nested object or array, of which only the truthiness is read. *)
Inductive JsValue :=
| JUndefined
| JNull
| JBool (b : bool)
| JNumber (q : Q)
| JString (s : string)
| JObject.

Definition jsTruthy (v : JsValue) : bool :=
  match v with
  | JUndefined | JNull => false
  | JBool b => b
  | JNumber q => negb (Qeq_bool q 0)
  | JString s => truthy s
  | JObject => true
  end.

(** [a || b] *)
Definition jsOr (a b : JsValue) : JsValue := if jsTruthy a then a else b.

(** [v === "s"] and [v === false] *)
Definition isString (v : JsValue) (s : string) : bool :=
  match v with
  | JString t => String.eqb t s
  | _ => false
  end.

Definition isFalse (v : JsValue) : bool :=
  match v with
  | JBool false => true
  | _ => false
  end.

(** What [response.json()] yields: [null], an object, or a value of
    which every property read below is [undefined]. *)
Inductive Json :=
| JsonNull
| JsonObject (fields : gmap string JsValue)
| JsonOther.

(** The outcome of a [fetch] and of reading the response body: the
    promise rejects (or the body cannot be read), the response is not
    [ok], or it is [ok] with a body. *)
Inductive Fetched (A : Type) :=
| FetchThrew
| FetchNotOk
| FetchOk (body : A).
Arguments FetchThrew {A}.
Arguments FetchNotOk {A}.
Arguments FetchOk {A} body.

(** The Tracerfy service as the client sees it.  The submission is
    determined by the listings it is built from; the answer to a status
    request may depend on how many were made before it. *)
Record Network := {
  submitBatch : list (gmap string JsValue) -> Fetched Json;
  queueStatus : JsValue -> nat -> Fetched Json;
  downloadResults : JsValue -> Fetched string
}.

(** *** A monad for the body of the [try] block

    The state is the number of status requests made so far; a
    computation returns, throws, or ([None]) runs out of loop fuel. *)
Inductive Result (A : Type) :=
| Return (a : A)
| Throw.
Arguments Return {A} a.
Arguments Throw {A}.

Definition M (A : Type) : Type := nat -> option (Result A * nat).

Definition ret {A} (a : A) : M A := fun n => Some (Return a, n).
Definition throw {A} : M A := fun n => Some (Throw, n).
Definition bind {A B} (m : M A) (k : A -> M B) : M B :=
  fun n =>
    match m n with
    | Some (Return a, n') => k a n'
    | Some (Throw, n') => Some (Throw, n')
    | None => None
    end.

Declare Scope js_scope.
Delimit Scope js_scope with js.
Notation "x <~ m ;; k" := (bind m (fun x => k))
  (at level 100, m at next level, right associativity) : js_scope.
Local Open Scope js_scope.

(** [try { m } catch (error) { return fallback; }].  What the block
    throws is an [Error] object (a rejected [fetch], a body that cannot
    be read, a property read on [null], a call of a missing method), so
    the handler's own [error.message] does not throw. *)
Definition tryCatch {A} (m : M A) (fallback : A) : M A :=
  fun n =>
    match m n with
    | Some (Throw, n') => Some (Return fallback, n')
    | other => other
    end.

(** [await fetch(...)] followed by the reading of the body. *)
Definition awaitFetch {A} (response : Fetched A) : M (option A) :=
  match response with
  | FetchThrew => throw
  | FetchNotOk => ret None
  | FetchOk body => ret (Some body)
  end.

(** The status request: one more request has been made. *)
Definition fetchStatus (net : Network) (queueId : JsValue) : M (option Json) :=
  fun n => awaitFetch (queueStatus net queueId n) (S n).

(** Property reads on a payload: reading a property of [null] throws
    ([None]); a missing property reads as [undefined]. *)
Definition propertiesOf (payload : Json) : option (string -> JsValue) :=
  match payload with
  | JsonNull => None
  | JsonObject fields => Some (fun key => default JUndefined (fields !! key))
  | JsonOther => Some (fun _ => JUndefined)
  end.

Definition properties (payload : Json) : M (string -> JsValue) :=
  match propertiesOf payload with
  | Some get => ret get
  | None => throw
  end.

(** [isComplete] and [resultUrl] of the poll loop, from the property
    reads [get] of [statusResult]. *)
Definition isComplete (get : string -> JsValue) : bool :=
  let status := jsOr (get "status") (get "state") in
  isString status "completed" || isString status "complete" ||
  isString status "done" || isFalse (get "pending").

Definition resultUrl (get : string -> JsValue) : JsValue :=
  jsOr (jsOr (jsOr (get "download_url") (get "result_url")) (get "file_url"))
       (get "url").

Definition maxAttempts : Z := 12.

(** The [while (attempts < maxAttempts)] loop.  [fuel] bounds the number
    of iterations of the model; [attempts] and [downloadUrl] are the
    loop's variables.  The ten-second wait before each status request
    takes time and changes nothing else; it is left out. *)
Fixpoint pollLoop (net : Network) (queueId : JsValue) (fuel : nat)
    (attempts : Z) (downloadUrl : JsValue) : M JsValue :=
  if attempts <? maxAttempts then
    match fuel with
    | O => fun _ => None
    | S fuel' =>
        statusResponse <~ fetchStatus net queueId ;;
        match statusResponse with
        | None => pollLoop net queueId fuel' (attempts + 1) downloadUrl
        | Some statusResult =>
            get <~ properties statusResult ;;
            if isComplete get && jsTruthy (resultUrl get)
            then ret (resultUrl get)
            else pollLoop net queueId fuel' (attempts + 1) downloadUrl
        end
    end
  else ret downloadUrl.
Arguments pollLoop : simpl never.

(** [parseTracerfyResults] *)
Definition tracerfyHeaders (headerLine : string) : list string :=
  map (fun h => underscoreSpaces (toLowerCase (stripQuotes (trim h))) false)
      (split comma headerLine).

Definition parseTracerfyResults (csvText : string)
    : list (gmap string string) :=
  match nonBlankLines csvText with
  | [] | [_] => []
  | headerLine :: dataLines =>
      fold_left
        (fun (results : list (gmap string string)) line =>
           (results ++ [rowOfLine (tracerfyHeaders headerLine) line])%list)
        dataLines []
  end.

(** The predicate of [results.find] for a listing's normalized address. *)
Definition addressMatches (normalizedAddress : string)
    (r : gmap string string) : bool :=
  let resultAddress := trim (toLowerCase (field r "address")) in
  includes resultAddress (firstToken normalizedAddress) ||
  includes normalizedAddress (firstToken resultAddress).

(** [a || b] on strings that may be [undefined]. *)
Definition orField (a : option string) (b : option string) : option string :=
  match a with
  | Some s => if truthy s then a else b
  | None => b
  end.

Definition fieldTruthy (a : option string) : bool :=
  match a with
  | Some s => truthy s
  | None => false
  end.

(** The four owner fields computed from a matched contact row.  In
    [ownerName] the conditional operator binds weaker than [||]: the
    test is [owner_name || first_name], both branches ignore
    [owner_name]. *)
Definition ownerName (m : gmap string string) : string :=
  if fieldTruthy (orField (m !! "owner_name") (m !! "first_name"))
  then trim (field m "first_name" ++ " " ++ field m "last_name")
  else "".

Definition ownerPhone (m : gmap string string) : string :=
  default ""
    (orField (orField (m !! "mobile_1") (m !! "landline_1")) (m !! "phone_1")).

Definition ownerEmail (m : gmap string string) : string :=
  default "" (orField (m !! "email_1") (m !! "email")).

Definition ownerMailingAddress (m : gmap string string) : string :=
  field m "mail_address".

(** [{ ...listing, ownerName: .., ownerPhone: .., ownerEmail: ..,
    ownerMailingAddress: .. }] *)
Definition withOwner (listing : gmap string JsValue)
    (m : gmap string string) : gmap string JsValue :=
  <["ownerMailingAddress" := JString (ownerMailingAddress m)]>
    (<["ownerEmail" := JString (ownerEmail m)]>
      (<["ownerPhone" := JString (ownerPhone m)]>
        (<["ownerName" := JString (ownerName m)]> listing))).

(** The callback of [listings.map]: [listing.address.toLowerCase()]
    throws unless the address is a string. *)
Definition enrich (results : list (gmap string string))
    (listing : gmap string JsValue) : M (gmap string JsValue) :=
  match listing !! "address" with
  | Some (JString addr) =>
      let normalizedAddress := trim (toLowerCase addr) in
      match List.find (addressMatches normalizedAddress) results with
      | Some m => ret (withOwner listing m)
      | None => ret listing
      end
  | _ => throw
  end.

Fixpoint mapM {A B} (f : A -> M B) (l : list A) : M (list B) :=
  match l with
  | [] => ret []
  | x :: rest => y <~ f x ;; ys <~ mapM f rest ;; ret (y :: ys)
  end.

Definition pollFuel : nat := Z.to_nat maxAttempts.

(** The body of the [try] block of [skipTraceWithTracerfy]. *)
Definition skipTraceBody (net : Network)
    (listings : list (gmap string JsValue)) : M (list (gmap string JsValue)) :=
  submitResponse <~ awaitFetch (submitBatch net listings) ;;
  match submitResponse with
  | None => ret listings
  | Some submitResult =>
      get <~ properties submitResult ;;
      let queueId := jsOr (get "queue_id") (get "id") in
      downloadUrl <~ pollLoop net queueId pollFuel 0 JNull ;;
      if negb (jsTruthy downloadUrl) then ret listings
      else
        resultsResponse <~ awaitFetch (downloadResults net downloadUrl) ;;
        match resultsResponse with
        | None => ret listings
        | Some resultsCsv =>
            let results := parseTracerfyResults resultsCsv in
            enriched <~ mapM (enrich results) listings ;;
            ret enriched
        end
  end.

Definition skipTraceWithTracerfy (net : Network)
    (listings : list (gmap string JsValue)) : M (list (gmap string JsValue)) :=
  tryCatch (skipTraceBody net listings) listings.

(** The object that [processExpiredListings] hands to the skip trace:
    [{ ...listing, urgencyScore: .., csvFilename: .. }]. *)
Definition scoredListing (l : Listing) (score : Q) (file : string)
    : gmap string JsValue :=
  <["csvFilename" := JString file]>
    (<["urgencyScore" := JNumber score]>
      (list_to_map
         [("address", JString (address l)); ("city", JString (city l));
          ("zip", JString (zip l)); ("state", JString (state l));
          ("price", JString (price l));
          ("originalListDate", JString (originalListDate l));
          ("expiredDate", JString (expiredDate l));
          ("daysOnMarket", JString (daysOnMarket l));
          ("cumulativeDaysOnMarket", JString (cumulativeDaysOnMarket l));
          ("bedrooms", JString (bedrooms l));
          ("bathrooms", JString (bathrooms l)); ("sqft", JString (sqft l));
          ("yearBuilt", JString (yearBuilt l));
          ("listingAgent", JString (listingAgent l));
          ("listingOffice", JString (listingOffice l));
          ("mlsNumber", JString (mlsNumber l));
          ("propertyType", JString (propertyType l));
          ("status", JString (status l))])).

(** ** Vocabulary of the statements *)

(** [q] is [h/2] for an integer [h] between [lo] and [hi]. *)
Definition halves (lo hi : Z) (q : Q) : Prop :=
  exists h : Z, lo <= h <= hi /\ (q == h # 2)%Q.

(** The columns of the export and the fields of the record they fill. *)
Definition sourceColumns : list (string * (Listing -> string)) :=
  [("City/Location", city); ("Zip Code", zip); ("List Price", price);
   ("List Date", originalListDate); ("Last Change Timestamp", expiredDate);
   ("DOM", daysOnMarket); ("CDOM", cumulativeDaysOnMarket);
   ("Bedrooms", bedrooms); ("Baths Total", bathrooms);
   ("Building SqFt", sqft); ("Year Built", yearBuilt);
   ("List Agent Full Name", listingAgent);
   ("List Office Name", listingOffice); ("MLS Number", mlsNumber);
   ("Property Type", propertyType); ("Status", status)].

(** A status response that does not end the poll loop: a failed status
    check, or a payload whose properties can be read and that does not
    report completion together with a result location. *)
Definition keepsPolling (response : Fetched Json) : bool :=
  match response with
  | FetchThrew => false
  | FetchNotOk => true
  | FetchOk statusResult =>
      match propertiesOf statusResult with
      | Some get => negb (isComplete get && jsTruthy (resultUrl get))
      | None => false
      end
  end.


(** The queue id read from the submission's answer. *)
Definition queueIdOf (get : string -> JsValue) : JsValue :=
  jsOr (get "queue_id") (get "id").

(** The ways a run of the skip trace fails. *)
Inductive StageFailure (net : Network)
    (listings : list (gmap string JsValue)) : Prop :=
| SubmitNotOk :
    submitBatch net listings = FetchNotOk -> StageFailure net listings
| NoDownloadUrl submitResult get url n :
    submitBatch net listings = FetchOk submitResult ->
    propertiesOf submitResult = Some get ->
    pollLoop net (queueIdOf get) pollFuel 0 JNull 0%nat
      = Some (Return url, n) ->
    jsTruthy url = false ->
    StageFailure net listings
| DownloadNotOk submitResult get url n :
    submitBatch net listings = FetchOk submitResult ->
    propertiesOf submitResult = Some get ->
    pollLoop net (queueIdOf get) pollFuel 0 JNull 0%nat
      = Some (Return url, n) ->
    downloadResults net url = FetchNotOk ->
    StageFailure net listings
| ExceptionThrown n :
    skipTraceBody net listings 0%nat = Some (Throw, n) ->
    StageFailure net listings.

(** The fields the skip trace attaches. *)
Definition ownerFields : list string :=
  ["ownerName"; "ownerPhone"; "ownerEmail"; "ownerMailingAddress"].

(** What the skip trace may do to one listing: nothing, or attach the
    owner fields of a contact row. *)
Definition enrichedFrom (l l' : gmap string JsValue) : Prop :=
  l' = l \/ exists m : gmap string string, l' = withOwner l m.

(** Strings made of white space only, and strings without a double
    quote. *)
Fixpoint allWhiteSpace (s : string) : bool :=
  match s with
  | EmptyString => true
  | String c rest => isWhiteSpace c && allWhiteSpace rest
  end.

Fixpoint quoteFree (s : string) : bool :=
  match s with
  | EmptyString => true
  | String c rest => negb (Ascii.eqb c dquote) && quoteFree rest
  end.

(** A value that [trim] cannot empty: it is empty or holds more than
    white space. *)
Definition settled (v : string) : Prop := truthy (trim v) = truthy v.

(** A tokenized value: the trimmed image of a buffer without quotes. *)
Definition tokenValue (v : string) : Prop :=
  exists c, quoteFree c = true /\ v = trim c.

(** *** Concrete inputs *)

Definition blankListing : Listing :=
  {| address := "100 Oak St"; city := "Houston"; zip := "77002";
     state := "TX"; price := ""; originalListDate := ""; expiredDate := "";
     daysOnMarket := ""; cumulativeDaysOnMarket := ""; bedrooms := "";
     bathrooms := ""; sqft := ""; yearBuilt := ""; listingAgent := "";
     listingOffice := ""; mlsNumber := ""; propertyType := "";
     status := "" |}.

Definition withDays (dom cdom : string) (l : Listing) : Listing :=
  {| address := address l; city := city l; zip := zip l; state := state l;
     price := price l; originalListDate := originalListDate l;
     expiredDate := expiredDate l; daysOnMarket := dom;
     cumulativeDaysOnMarket := cdom; bedrooms := bedrooms l;
     bathrooms := bathrooms l; sqft := sqft l; yearBuilt := yearBuilt l;
     listingAgent := listingAgent l; listingOffice := listingOffice l;
     mlsNumber := mlsNumber l; propertyType := propertyType l;
     status := status l |}.

Definition withExpired (date : string) (l : Listing) : Listing :=
  {| address := address l; city := city l; zip := zip l; state := state l;
     price := price l; originalListDate := originalListDate l;
     expiredDate := date; daysOnMarket := daysOnMarket l;
     cumulativeDaysOnMarket := cumulativeDaysOnMarket l;
     bedrooms := bedrooms l; bathrooms := bathrooms l; sqft := sqft l;
     yearBuilt := yearBuilt l; listingAgent := listingAgent l;
     listingOffice := listingOffice l; mlsNumber := mlsNumber l;
     propertyType := propertyType l; status := status l |}.

(** A clock at 2025-01-16 01:00 UTC and the ISO date parser. *)
Definition hostJan16 : Host :=
  {| Date_now := 1736989200000; getFullYear := 2025;
     Date_parse := Date_parse_iso |}.

(** An export with one listing that has an address and one that has
    none, and without a [Zip Code] column. *)
Definition nl : string := String newline "".

Definition sampleHeader : string :=
  "Street Number,Street Name,City/Location,DOM".

Definition sampleCsv : string :=
  sampleHeader ++ nl ++ "12,Main St,Houston,180" ++ nl ++ ",,Katy,3" ++ nl.

(** An export whose header has a quoted cell with a comma in it. *)
Definition quoteMark : string := String dquote "".

Definition quotedHeader : string :=
  quoteMark ++ "Street Number" ++ quoteMark ++ "," ++
  quoteMark ++ "Owner, Name" ++ quoteMark ++ "," ++
  quoteMark ++ "Street Name" ++ quoteMark.

Definition quotedDataLine : string :=
  "12," ++ quoteMark ++ "Smith, J" ++ quoteMark ++ ",Main St".

Definition quotedHeaderCsv : string :=
  quotedHeader ++ nl ++ quotedDataLine.

(** The attempts left in the poll budget. *)
Definition remaining (attempts : Z) : nat := Z.to_nat (maxAttempts - attempts).

(** A scored listing, and services that accept the batch under queue 7:
    one whose status endpoint never reports a finished job with a result
    location, one that rejects the submission, one whose submission
    request fails, and one that delivers a contact file. *)
Definition oakListing : gmap string JsValue :=
  scoredListing blankListing 1 "expired-listings/a.csv".

Definition acceptBatch (listings : list (gmap string JsValue)) : Fetched Json :=
  FetchOk (JsonObject {[ "queue_id" := JNumber 7 ]}).

Definition stalledNet : Network :=
  {| submitBatch := acceptBatch;
     queueStatus := fun _ n =>
       match (n mod 3)%nat with
       | O => FetchNotOk
       | S O => FetchOk (JsonObject {[ "status" := JString "processing" ]})
       | _ => FetchOk (JsonObject {[ "status" := JString "completed" ]})
       end;
     downloadResults := fun _ => FetchThrew |}.

Definition rejectingNet : Network :=
  {| submitBatch := fun _ => FetchNotOk;
     queueStatus := fun _ _ => FetchThrew;
     downloadResults := fun _ => FetchThrew |}.

Definition unreachableNet : Network :=
  {| submitBatch := fun _ => FetchThrew;
     queueStatus := fun _ _ => FetchThrew;
     downloadResults := fun _ => FetchThrew |}.

Definition contactsCsv : string :=
  "address,owner_name,first_name,last_name,mobile_1,landline_1,phone_1"
  ++ nl ++ "100 Oak St,John Smith,,,,555-0100,555-0199" ++ nl.

Definition contactsNet : Network :=
  {| submitBatch := acceptBatch;
     queueStatus := fun _ _ =>
       FetchOk (JsonObject
         (<["download_url" := JString "https://files.example/r.csv"]>
            {[ "status" := JString "completed" ]}));
     downloadResults := fun _ => FetchOk contactsCsv |}.

(** The row of the contact file, and a row that has both a combined name
    and the two name parts. *)
Definition contactRow : gmap string string :=
  hd ∅ (parseTracerfyResults contactsCsv).

Definition trustRow : gmap string string :=
  <["owner_name" := "Smith Family Trust"]>
    (<["first_name" := "John"]> {[ "last_name" := "Smith" ]}).

(** ** Vocabulary of the further properties *)

Fixpoint fieldSeparators (line : string) (inQuotes : bool) : nat :=
  match line with
  | EmptyString => 0
  | String char rest =>
      if Ascii.eqb char dquote then fieldSeparators rest (negb inQuotes)
      else if Ascii.eqb char comma && negb inQuotes
      then S (fieldSeparators rest inQuotes)
      else fieldSeparators rest inQuotes
  end.

Definition headOk (s : string) : Prop :=
  match s with
  | EmptyString => True
  | String c _ => isWhiteSpace c = false
  end.


(** The strings of a normalized record, in the order of the literal. *)
Definition listingFields (n : Listing) : list string :=
  [address n; city n; zip n; state n; price n; originalListDate n;
   expiredDate n; daysOnMarket n; cumulativeDaysOnMarket n; bedrooms n;
   bathrooms n; sqft n; yearBuilt n; listingAgent n; listingOffice n;
   mlsNumber n; propertyType n; status n].

(** A value without a double quote that [trim] leaves as it is. *)
Definition cleanValue (v : string) : Prop :=
  quoteFree v = true /\ trim v = v.

Fixpoint hasChar (c : ascii) (s : string) : bool :=
  match s with
  | EmptyString => false
  | String a rest => Ascii.eqb a c || hasChar c rest
  end.

(** The parts of an address: not empty, no quote, no white space at
    either end. *)
Definition addressPart (p : string) : Prop :=
  p <> "" /\ quoteFree p = true /\ headOk p /\ headOk (rev_string p "").


(** *** The batch file of the skip trace

    [csvHeader], [csvRows] and [csvContent] of [skipTraceWithTracerfy].
    A template literal turns a value into text; [hostText] is the host's
    conversion of numbers and objects. *)
Definition templateText (hostText : JsValue -> string) (v : JsValue)
    : string :=
  match v with
  | JString s => s
  | JUndefined => "undefined"
  | JNull => "null"
  | JBool true => "true"
  | JBool false => "false"
  | _ => hostText v
  end.

(** [obj.key] *)
Definition prop (obj : gmap string JsValue) (key : string) : JsValue :=
  default JUndefined (obj !! key).

Definition quoted (s : string) : string := quoteMark ++ s ++ quoteMark.

Definition csvHeader : string :=
  "address,city,state,zip,first_name,last_name,mail_address,mail_city,mail_state"
  ++ nl.

Definition csvRow (hostText : JsValue -> string)
    (l : gmap string JsValue) : string :=
  quoted (templateText hostText (prop l "address")) ++ "," ++
  quoted (templateText hostText (prop l "city")) ++ "," ++
  quoted (templateText hostText (prop l "state")) ++ "," ++
  quoted (templateText hostText (prop l "zip")) ++ "," ++
  quoted "" ++ "," ++ quoted "" ++ "," ++ quoted "" ++ "," ++
  quoted "" ++ "," ++ quoted "".

Definition csvContent (hostText : JsValue -> string)
    (listings : list (gmap string JsValue)) : string :=
  csvHeader ++ join nl (map (csvRow hostText) listings).

(** The result location a status response completes the poll with. *)
Definition completesWith (response : Fetched Json) : option JsValue :=
  match response with
  | FetchOk statusResult =>
      match propertiesOf statusResult with
      | Some get =>
          if isComplete get && jsTruthy (resultUrl get)
          then Some (resultUrl get) else None
      | None => None
      end
  | _ => None
  end.

(** A key as [parseTracerfyResults] makes them: no white space, no
    upper-case letter. *)
Fixpoint normalizedKey (k : string) : bool :=
  match k with
  | EmptyString => true
  | String c rest =>
      negb (isWhiteSpace c) && Ascii.eqb (lowerChar c) c && normalizedKey rest
  end.

(** ** The pipeline: [processExpiredListings] *)

(** [s.endsWith(suffix)] *)
Definition endsWith (s suffix : string) : bool :=
  startsWith (rev_string suffix "") (rev_string s "").

(** [array.sort(compare)]: the sort is stable, and for a comparator that
    orders its arguments consistently the result is the one an insertion
    from the right builds.  [compare a b <= 0] leaves [a] before [b]. *)
Fixpoint sortInsert {A} (compare : A -> A -> Q) (x : A) (sorted : list A)
    : list A :=
  match sorted with
  | [] => [x]
  | y :: rest =>
      if Qle_bool (compare x y) 0 then x :: sorted
      else y :: sortInsert compare x rest
  end.

Definition sort {A} (compare : A -> A -> Q) (l : list A) : list A :=
  fold_right (sortInsert compare) [] l.

(** [listing.urgencyScore] as a number: the score when it is a number, as
    it is for every listing the pipeline ranks; [NaN] otherwise. *)
Definition urgencyScoreOf (listing : gmap string JsValue) : option Q :=
  match listing !! "urgencyScore" with
  | Some (JNumber q) => Some q
  | _ => None
  end.

(** [(a, b) => b.urgencyScore - a.urgencyScore]; [sort] reads a [NaN]
    result as 0. *)
Definition byScore {A} (listingOf : A -> gmap string JsValue) (a b : A) : Q :=
  match urgencyScoreOf (listingOf b), urgencyScoreOf (listingOf a) with
  | Some sb, Some sa => sb - sa
  | _, _ => 0
  end.

(** The value of [listing.analysis]. *)
Record Analysis := {
  fullAnalysis : option string;
  positioningAngle : string;
  talkingPoints : list string
}.

Definition notAnalyzed : Analysis :=
  {| fullAnalysis := None;
     positioningAngle := "Lower priority - not analyzed";
     talkingPoints := [] |}.

(** [R2_BUCKET.get(key)] followed by [object.text()]: it throws, there is
    no such object, or the text is read. *)
Inductive R2Get :=
| GetThrew
| GetNull
| GetText (csvText : string).

(** The bindings of the worker.  [host] is the clock and the date
    parser the scorer reads, the same for every listing of a run.
    [R2_list] is the keys of the objects under the prefix and
    [DB_processed] the [csv_filename] column of the query, [None] when
    the call throws.  [claude n listing] is what the [n]-th call of
    [analyzeListingWithClaude] returns; that function catches what it
    throws, and so does [storeIntelligence]. *)
Record Env := {
  host : Host;
  R2_list : option (list string);
  DB_processed : option (list (option string));
  R2_get : string -> R2Get;
  TRACERFY_API_KEY : bool;
  tracerfy : Network;
  claude : nat -> gmap string JsValue -> Analysis
}.

(** A listing object with its [analysis] property set. *)
Definition Analyzed : Type := gmap string JsValue * Analysis.

(** [objects.objects.filter(obj => obj.key.endsWith(".csv"))] *)
Definition csvFilesOf (keys : list string) : list string :=
  List.filter (fun key => endsWith key ".csv") keys.

(** [new Set(results.map(r => r.csv_filename).filter(Boolean))] *)
Definition processedFilesOf (results : list (option string)) : gset string :=
  list_to_set
    (omap (fun name : option string =>
             match name with
             | Some s => if truthy s then Some s else None
             | None => None
             end) results).

(** [csvFiles.filter(f => !processedFiles.has(f.key))] *)
Definition newFilesOf (csvFiles : list string) (processedFiles : gset string)
    : list string :=
  List.filter (fun key => negb (bool_decide (key ∈ processedFiles))) csvFiles.

(** Step 5: the scored listings of one file. *)
Definition scoreListings (h : Host) (file : string) (listings : list Listing)
    : list (gmap string JsValue) :=
  map (fun listing =>
         scoredListing listing (calculateUrgencyScore h listing) file)
      listings.

(** [await skipTraceWithTracerfy(scoredListings, key)]: the listings it
    returns, [None] if it were to throw. *)
Definition awaitSkipTrace (net : Network)
    (scoredListings : list (gmap string JsValue))
    : option (list (gmap string JsValue)) :=
  match skipTraceWithTracerfy net scoredListings 0%nat with
  | Some (Return enriched, _) => Some enriched
  | _ => None
  end.

(** Step 7, first loop: the top listings, each with the analysis of its
    own call; [calls] counts the calls made before. *)
Fixpoint analyzeTop (analyze : nat -> gmap string JsValue -> Analysis)
    (calls : nat) (topListings : list (gmap string JsValue))
    : list Analyzed :=
  match topListings with
  | [] => []
  | listing :: rest =>
      (listing, analyze calls listing) :: analyzeTop analyze (S calls) rest
  end.

(** The variables of the loop over the new files, and what has been
    handed to [storeIntelligence] so far. *)
Record Progress := {
  totalListings : nat;
  allProcessedListings : list Analyzed;
  storeCalls : list Analyzed;
  claudeCalls : nat
}.

(** One file that was read: steps 5 to 7 and the bookkeeping after
    them.  [None] if the skip trace were to throw. *)
Definition processFile (env : Env) (file csvText : string) (p : Progress)
    : option Progress :=
  let listings := parseCSV csvText in
  let scoredListings := scoreListings (host env) file listings in
  enrichedListings ←
    (if TRACERFY_API_KEY env
     then awaitSkipTrace (tracerfy env) scoredListings
     else Some scoredListings);
  let sortedByScore := sort (byScore id) enrichedListings in
  let topListings := firstn 20 sortedByScore in
  let analyzedTop := analyzeTop (claude env) (claudeCalls p) topListings in
  let analyzedRest :=
    map (fun listing => (listing, notAnalyzed)) (skipn 20 sortedByScore) in
  Some {| totalListings := totalListings p + length listings;
          allProcessedListings :=
            allProcessedListings p ++ analyzedTop ++ analyzedRest;
          storeCalls := storeCalls p ++ analyzedTop ++ analyzedRest;
          claudeCalls := claudeCalls p + length topListings |}.

(** The loop over the new files: the progress made, and whether the loop
    ran to its end ([false]: an exception left it). *)
Fixpoint processFiles (env : Env) (newFiles : list string) (p : Progress)
    : Progress * bool :=
  match newFiles with
  | [] => (p, true)
  | file :: rest =>
      match R2_get env file with
      | GetThrew => (p, false)
      | GetNull => processFiles env rest p
      | GetText csvText =>
          match processFile env file csvText p with
          | Some p' => processFiles env rest p'
          | None => (p, false)
          end
      end
  end.

(** What a run does: the listings handed to [storeIntelligence], in
    order; the arguments of [sendSlackSummary] if it is called; whether
    the run rethrows an exception. *)
Record Run := {
  stored : list Analyzed;
  slack : option (list Analyzed * nat);
  rethrown : bool
}.

Definition nothingDone : Run :=
  {| stored := []; slack := None; rethrown := false |}.

Definition failedRun (storedSoFar : list Analyzed) : Run :=
  {| stored := storedSoFar; slack := None; rethrown := true |}.

Definition processExpiredListings (env : Env) : Run :=
  match R2_list env with
  | None => failedRun []
  | Some keys =>
      let csvFiles := csvFilesOf keys in
      match csvFiles with
      | [] => nothingDone
      | _ =>
          match DB_processed env with
          | None => failedRun []
          | Some results =>
              let newFiles := newFilesOf csvFiles (processedFilesOf results) in
              match newFiles with
              | [] => nothingDone
              | _ =>
                  let start :=
                    {| totalListings := 0; allProcessedListings := [];
                       storeCalls := []; claudeCalls := 0 |} in
                  match processFiles env newFiles start with
                  | (p, true) =>
                      {| stored := storeCalls p;
                         slack :=
                           Some (firstn 10 (sort (byScore fst)
                                              (allProcessedListings p)),
                                 totalListings p);
                         rethrown := false |}
                  | (p, false) => failedRun (storeCalls p)
                  end
              end
          end
      end
  end.

(** A listing whose urgency score is a number. *)
Definition scored (listing : gmap string JsValue) : Prop :=
  is_Some (urgencyScoreOf listing).

(** [a] does not score below [b]. *)
Definition outranks (a b : gmap string JsValue) : Prop :=
  exists sa sb, urgencyScoreOf a = Some sa /\ urgencyScoreOf b = Some sb /\
                (sb <= sa)%Q.

(** The listings whose score is [q]. *)
Definition scoresExactly (q : Q) (listing : gmap string JsValue) : bool :=
  match urgencyScoreOf listing with
  | Some s => Qeq_bool s q
  | None => false
  end.

(** A stored record that comes from [file] and has a numeric score. *)
Definition fromFile (file : string) (x : Analyzed) : Prop :=
  x.1 !! "csvFilename" = Some (JString file) /\ scored x.1.

(** What the loop over the files keeps: everything stored is in
    [allProcessedListings], is counted in [totalListings], and comes
    from one of the files. *)
Definition accounted (files : list string) (p : Progress) : Prop :=
  allProcessedListings p = storeCalls p /\
  totalListings p = length (storeCalls p) /\
  Forall (fun x => exists file, file ∈ files /\ fromFile file x)
         (storeCalls p).

Definition startProgress : Progress :=
  {| totalListings := 0; allProcessedListings := [];
     storeCalls := []; claudeCalls := 0 |}.

(** ** The Slack summary: [sendSlackSummary] *)

(** The blocks of the message; a section and a context carry their
    text, the header and the button their fixed content. *)
Inductive Block :=
| HeaderBlock (text : string)
| SectionBlock (text : string)
| DividerBlock
| ContextBlock (text : string)
| ActionsBlock.

(** The pictographs of the message, which lie outside the code units of
    this embedding. *)
Record Glyphs := {
  houseGlyph : string;
  phoneGlyph : string;
  envelopeGlyph : string;
  warningGlyph : string;
  bulbGlyph : string
}.

Definition backtick : string := String (ascii_of_N 96) "".

(** [contactInfo] of one listing. *)
Definition contactInfoOf (g : Glyphs) (hostText : JsValue -> string)
    (listing : gmap string JsValue) : string :=
  let ownerPhone := prop listing "ownerPhone" in
  let ownerEmail := prop listing "ownerEmail" in
  let hasContact := jsTruthy (jsOr ownerPhone ownerEmail) in
  let contactInfo := "" in
  let contactInfo :=
    if jsTruthy ownerPhone
    then contactInfo ++ phoneGlyph g ++ " " ++ backtick ++
         templateText hostText ownerPhone ++ backtick
    else contactInfo in
  let contactInfo :=
    if jsTruthy ownerEmail
    then (contactInfo ++ (if truthy contactInfo then " | " else "")) ++
         envelopeGlyph g ++ " " ++ templateText hostText ownerEmail
    else contactInfo in
  if negb hasContact then warningGlyph g ++ " No contact info"
  else contactInfo.

(** The text of the context block: the positioning angle cut at 200
    code units, with an ellipsis when it was longer. *)
Definition angleText (g : Glyphs) (angle : string) : string :=
  bulbGlyph g ++ " " ++ substring 0 200 angle ++
  (if (200 <? String.length angle)%nat then "..." else "").

(** The blocks pushed for the listing at index [i]. *)
Definition listingBlocks (g : Glyphs) (hostText : JsValue -> string)
    (i : nat) (x : Analyzed) : list Block :=
  let listing := x.1 in
  let t := fun key => templateText hostText (prop listing key) in
  let section :=
    SectionBlock
      (("*#" ++ hostText (JNumber (inject_Z (Z.of_nat i + 1))) ++ " - " ++
        t "address" ++ ", " ++ t "city" ++ "*" ++ nl) ++
       ("Score: *" ++ t "urgencyScore" ++ "/10* | $" ++ t "price" ++ " | " ++
        t "bedrooms" ++ "bd/" ++ t "bathrooms" ++ "ba" ++ nl) ++
       ("DOM: " ++ t "daysOnMarket" ++ " (CDOM: " ++
        t "cumulativeDaysOnMarket" ++ ")" ++ nl) ++
       contactInfoOf g hostText listing) in
  let angle := positioningAngle x.2 in
  let context :=
    if truthy angle && negb (String.eqb angle "Lower priority - not analyzed")
    then [ContextBlock (angleText g angle)]
    else [] in
  ([section] ++ context ++ [DividerBlock])%list.

(** The [for] loop over [topListings]; [blocks] is the array it
    extends. *)
Fixpoint slackLoop (g : Glyphs) (hostText : JsValue -> string) (i : nat)
    (topListings : list Analyzed) (blocks : list Block) : list Block :=
  match topListings with
  | [] => blocks
  | x :: rest =>
      slackLoop g hostText (S i) rest
        (blocks ++ listingBlocks g hostText i x)%list
  end.

(** The [blocks] posted to the webhook. *)
Definition slackBlocks (g : Glyphs) (hostText : JsValue -> string)
    (topListings : list Analyzed) (totalCount : nat) : list Block :=
  let blocks :=
    [HeaderBlock (houseGlyph g ++ " Expired Listings Report");
     SectionBlock
       ("*" ++ hostText (JNumber (inject_Z (Z.of_nat totalCount))) ++
        " listings processed* | Top 10 by urgency score:");
     DividerBlock] in
  (slackLoop g hostText 0 topListings blocks ++ [ActionsBlock])%list.

(** The text of a context block is at most [n] code units longer than
    the pictograph. *)
Definition contextWithin (g : Glyphs) (n : nat) (b : Block) : Prop :=
  match b with
  | ContextBlock text =>
      (String.length text <= String.length (bulbGlyph g) + n)%nat
  | _ => True
  end.

(** *** More concrete inputs *)

(** A service that answers two failed status checks and then a
    completed job, and one that stalls like [stalledNet] for twelve
    requests and would report completion from the thirteenth on. *)
Definition completedStatus : Fetched Json :=
  FetchOk (JsonObject
    (<["download_url" := JString "https://files.example/r.csv"]>
       {[ "status" := JString "completed" ]})).

Definition thirdTimeNet : Network :=
  {| submitBatch := acceptBatch;
     queueStatus := fun _ n =>
       if (n <? 2)%nat then FetchNotOk else completedStatus;
     downloadResults := fun _ => FetchOk contactsCsv |}.

Definition lateNet : Network :=
  {| submitBatch := acceptBatch;
     queueStatus := fun queueId n =>
       if (n <? 12)%nat then queueStatus stalledNet queueId n
       else completedStatus;
     downloadResults := fun _ => FetchThrew |}.

(** A contact row without an address. *)
Definition anonymousRow : gmap string string :=
  {[ "owner_name" := "Resident" ]}.

(** Three listings scored 3.0, 8.5 and 3.0. *)
Definition rankedSample : list (gmap string JsValue) :=
  [scoredListing blankListing 3 "a.csv";
   scoredListing (withDays "200" "" blankListing) (17 # 2) "a.csv";
   scoredListing (withDays "10" "" blankListing) 3 "a.csv"].

(** A bucket with a new export, a text file and an export that was
    processed before. *)
Definition sampleAnalysis : Analysis :=
  {| fullAnalysis := Some "BERNARD'S ANGLE: Lead with pricing";
     positioningAngle := "Lead with pricing";
     talkingPoints := ["Price history"] |}.

Definition sampleEnv : Env :=
  {| host := hostJan16;
     R2_list := Some ["expired-listings/a.csv"; "expired-listings/notes.txt";
                      "expired-listings/old.csv"];
     DB_processed := Some [Some "expired-listings/old.csv"; None];
     R2_get := fun key =>
       if String.eqb key "expired-listings/a.csv" then GetText sampleCsv
       else GetNull;
     TRACERFY_API_KEY := true;
     tracerfy := contactsNet;
     claude := fun _ _ => sampleAnalysis |}.

(** The same bucket when both exports were processed before. *)
Definition doneEnv : Env :=
  {| host := hostJan16;
     R2_list := R2_list sampleEnv;
     DB_processed := Some [Some "expired-listings/old.csv";
                           Some "expired-listings/a.csv"];
     R2_get := R2_get sampleEnv;
     TRACERFY_API_KEY := true;
     tracerfy := contactsNet;
     claude := claude sampleEnv |}.

(** * Properties *)

(** ** The rubric *)

Lemma halves_plus a b c d x y :
  halves a b x -> halves c d y -> halves (a + c) (b + d) (x + y).
Proof.
  intros [h [Hh Hx]] [k [Hk Hy]]. exists (h + k). split; [lia|].
  rewrite Hx, Hy. unfold Qeq, Qplus; simpl. lia.
Qed.

Ltac half h := exists h; split; [lia | reflexivity].

Lemma motivationPoints_halves dom : halves 1 4 (motivationPoints dom).
Proof.
  unfold motivationPoints.
  destruct (dom >=? 180); [half 4|].
  destruct (dom >=? 90); [half 3|].
  destruct (dom >=? 45); [half 2| half 1].
Qed.

Lemma freshnessPoints_halves d : halves 0 4 (freshnessPoints d).
Proof.
  unfold freshnessPoints.
  destruct (leNum d 3); [half 4|].
  destruct (leNum d 7); [half 3|].
  destruct (leNum d 14); [half 2|].
  destruct (leNum d 30); [half 1| half 0].
Qed.

Lemma repeatFailurePoints_halves c d : halves 1 4 (repeatFailurePoints c d).
Proof.
  unfold repeatFailurePoints.
  destruct (c >? d * 2); [half 4|].
  destruct (Qgtb _ _); [half 3|].
  destruct (c >? d); [half 2| half 1].
Qed.

Lemma pricePoints_halves p : halves 0 4 (pricePoints p).
Proof.
  unfold pricePoints.
  destruct (_ && _); [half 4|].
  destruct (_ && _); [half 3|].
  destruct (_ && _); [half 2|].
  destruct (_ && _); [half 1| half 0].
Qed.

Lemma agePoints_halves a : halves 0 2 (agePoints a).
Proof.
  unfold agePoints.
  destruct (a <=? 15); [half 2|].
  destruct (a <=? 30); [half 1| half 0].
Qed.

Lemma bedroomPoints_halves b : halves 0 2 (bedroomPoints b).
Proof.
  unfold bedroomPoints.
  destruct (_ && _); [half 2|].
  destruct (_ || _); [half 1| half 0].
Qed.

(** The accumulated score is a number of halves between 1 and 10. *)
Lemma rawScore_halves host l : halves 2 20 (rawScore host l).
Proof.
  unfold rawScore.
  assert (Z0 : halves 0 0 0%Q) by half 0.
  pose proof (halves_plus _ _ _ _ _ _ Z0
    (motivationPoints_halves (domOf l))) as H1.
  pose proof (halves_plus _ _ _ _ _ _ H1
    (freshnessPoints_halves (daysSinceExpired host l))) as H2.
  pose proof (halves_plus _ _ _ _ _ _ H2
    (repeatFailurePoints_halves (cdomOf l) (domOf l))) as H3.
  pose proof (halves_plus _ _ _ _ _ _ H3
    (pricePoints_halves (priceOf l))) as H4.
  pose proof (halves_plus _ _ _ _ _ _ H4
    (agePoints_halves (propertyAgeOf host l))) as H5.
  exact (halves_plus _ _ _ _ _ _ H5 (bedroomPoints_halves (bedsOf l))).
Qed.

(** Rounding to one decimal leaves a number of halves as it is. *)
Lemma round_tenths h : (Math_round ((h # 2) * 10) / 10 == h # 2)%Q.
Proof.
  unfold Math_round.
  assert (E : ((h # 2) * 10 + (1 # 2) == (10 * h + 1) # 2)%Q).
  { unfold Qeq, Qplus, Qmult; simpl. lia. }
  rewrite E. unfold Qfloor.
  replace ((10 * h + 1) / Z.pos 2) with (5 * h)
    by (apply Z.div_unique with 1; lia).
  unfold Qeq, Qdiv, Qmult, Qinv, inject_Z; simpl. lia.
Qed.

Lemma calculateUrgencyScore_halves host l :
  halves 2 20 (calculateUrgencyScore host l).
Proof.
  destruct (rawScore_halves host l) as [h [Hh Hq]].
  exists h. split; [exact Hh|].
  unfold calculateUrgencyScore.
  assert (E : (Math_round (rawScore host l * 10) / 10 == h # 2)%Q).
  { rewrite <- (round_tenths h). unfold Math_round.
    rewrite Hq. reflexivity. }
  unfold Math_min.
  destruct (Qle_bool 10 _) eqn:Hle; [|exact E].
  apply Qle_bool_iff in Hle. rewrite E in Hle.
  unfold Qle in Hle; simpl in Hle.
  assert (h = 20) by lia. subst h. reflexivity.
Qed.

(** C2. For every listing and every clock, the score of
    [calculateUrgencyScore] lies in the closed interval from 0 to 10 and
    is a whole number of tenths. *)
Theorem score_in_range_one_decimal (host : Host) (l : Listing) :
  (0 <= calculateUrgencyScore host l <= 10)%Q /\
  exists k : Z, (calculateUrgencyScore host l == k # 10)%Q.
Proof.
  destruct (calculateUrgencyScore_halves host l) as [h [Hh Hq]].
  split; [split|].
  - rewrite Hq. unfold Qle; simpl. lia.
  - rewrite Hq. unfold Qle; simpl. lia.
  - exists (5 * h). rewrite Hq. unfold Qeq; simpl. lia.
Qed.

(** C9. For every listing the score is at least 1.0: the motivation
    factor and the repeat-failure factor contribute at least 0.5 each,
    whatever the input. *)
Theorem score_at_least_one (host : Host) (l : Listing) :
  (1 # 2 <= motivationPoints (domOf l))%Q /\
  (1 # 2 <= repeatFailurePoints (cdomOf l) (domOf l))%Q /\
  (1 <= calculateUrgencyScore host l)%Q.
Proof.
  split; [|split].
  - destruct (motivationPoints_halves (domOf l)) as [h [Hh Hq]].
    rewrite Hq. unfold Qle; simpl. lia.
  - destruct (repeatFailurePoints_halves (cdomOf l) (domOf l))
      as [h [Hh Hq]].
    rewrite Hq. unfold Qle; simpl. lia.
  - destruct (calculateUrgencyScore_halves host l) as [h [Hh Hq]].
    rewrite Hq. unfold Qle; simpl. lia.
Qed.

(** The lower bound is met: a listing with no data and an old expiration
    scores exactly 1.0 in a year after 2030. *)
Example score_one_is_reached :
  (calculateUrgencyScore
     {| Date_now := 0; getFullYear := 2040; Date_parse := Date_parse_iso |}
     blankListing == 1)%Q.
Proof. vm_compute. reflexivity. Qed.

(** C1, as amended. The rubric's breakpoints: DOM 180 earns 2.0 and DOM
    179 earns 1.5 from the motivation factor; a listing whose CDOM equals
    a non-negative DOM earns 0.5 from the repeat-failure factor; a price
    of exactly 150000 earns 1.5 from the price factor. *)
Theorem rubric_breakpoints (dom : Z) (Hdom : 0 <= dom) :
  motivationPoints 180 = 2%Q /\
  motivationPoints 179 = (3 # 2)%Q /\
  repeatFailurePoints dom dom = (1 # 2)%Q /\
  pricePoints 150000 = (3 # 2)%Q.
Proof.
  repeat split.
  unfold repeatFailurePoints.
  assert (H1 : (dom >? dom * 2) = false) by (rewrite Z.gtb_ltb; apply Z.ltb_ge; lia).
  assert (H2 : Qgtb (inject_Z dom) (inject_Z dom * (3 # 2)) = false).
  { unfold Qgtb. apply negb_false_iff, Qle_bool_iff.
    unfold Qle, Qmult, inject_Z; simpl. lia. }
  assert (H3 : (dom >? dom) = false) by (rewrite Z.gtb_ltb; apply Z.ltb_ge; lia).
  rewrite H1, H2, H3. reflexivity.
Qed.

(** The breakpoints on listings as the parser delivers them. *)
Lemma rubric_breakpoints_witness :
  0 <= domOf (withDays "200" "200" blankListing) /\
  motivationPoints (domOf (withDays "180" "" blankListing)) = 2%Q /\
  motivationPoints (domOf (withDays "179" "" blankListing)) = (3 # 2)%Q /\
  repeatFailurePoints (cdomOf (withDays "200" "200" blankListing))
                      (domOf (withDays "200" "200" blankListing))
    = (1 # 2)%Q /\
  pricePoints 150000 = (3 # 2)%Q.
Proof.
  split; [vm_compute; discriminate|].
  exact (rubric_breakpoints 200 ltac:(lia)).
Defined.

(** C1, the claim as written fails: with DOM and CDOM both -5 the first
    test [cdom > dom * 2] holds, and the factor earns 2.0, not 0.5. *)
Lemma repeat_failure_negative_dom :
  let l := withDays "-5" "-5" blankListing in
  cdomOf l = domOf l /\
  repeatFailurePoints (cdomOf l) (domOf l) = 2%Q /\
  ~ (repeatFailurePoints (cdomOf l) (domOf l) == 1 # 2)%Q.
Proof.
  repeat split. vm_compute. discriminate.
Qed.

(** ** The freshness factor *)

Lemma truthy_empty s : truthy s = false <-> s = "".
Proof. destruct s; simpl; split; congruence. Qed.

Lemma truthy_nonempty s : truthy s = true <-> s <> "".
Proof. destruct s; simpl; split; congruence. Qed.

Lemma freshnessPoints_table (d : Z) :
  (d <= 3 -> freshnessPoints (Some d) = 2%Q) /\
  (3 < d <= 7 -> freshnessPoints (Some d) = (3 # 2)%Q) /\
  (7 < d <= 14 -> freshnessPoints (Some d) = 1%Q) /\
  (14 < d <= 30 -> freshnessPoints (Some d) = (1 # 2)%Q) /\
  (30 < d -> freshnessPoints (Some d) = 0%Q).
Proof.
  unfold freshnessPoints, leNum.
  destruct (Z.leb_spec d 3), (Z.leb_spec d 7), (Z.leb_spec d 14),
    (Z.leb_spec d 30); repeat split; intros; try reflexivity; lia.
Qed.

(** C3, as amended. The days since expiration are the floor of the
    elapsed days between the clock and the expiration date when that date
    parses, 999 when the expiration date is absent (empty), and NaN when
    it is present but does not parse.  The factor earns 2.0 up to 3 days,
    1.5 up to 7, 1.0 up to 14, 0.5 up to 30 and nothing above; NaN fails
    every comparison, so an absent and an unparseable date both earn
    nothing. *)
Theorem freshness_days_and_points (host : Host) (l : Listing) :
  (expiredDate l = "" -> daysSinceExpired host l = Some 999) /\
  (expiredDate l <> "" -> Date_parse host (expiredDate l) = None ->
   daysSinceExpired host l = None) /\
  (forall time, expiredDate l <> "" ->
     Date_parse host (expiredDate l) = Some time ->
     exists d, daysSinceExpired host l = Some d /\
       d * msPerDay <= Date_now host - time < (d + 1) * msPerDay) /\
  (forall d : Z,
     (d <= 3 -> freshnessPoints (Some d) = 2%Q) /\
     (3 < d <= 7 -> freshnessPoints (Some d) = (3 # 2)%Q) /\
     (7 < d <= 14 -> freshnessPoints (Some d) = 1%Q) /\
     (14 < d <= 30 -> freshnessPoints (Some d) = (1 # 2)%Q) /\
     (30 < d -> freshnessPoints (Some d) = 0%Q)) /\
  (expiredDate l = "" \/ Date_parse host (expiredDate l) = None ->
   freshnessPoints (daysSinceExpired host l) = 0%Q).
Proof.
  unfold daysSinceExpired.
  split; [|split; [|split; [|split]]].
  - intros ->. reflexivity.
  - intros Hne ->. apply truthy_nonempty in Hne. rewrite Hne. reflexivity.
  - intros time Hne ->. apply truthy_nonempty in Hne. rewrite Hne.
    eexists; split; [reflexivity|].
    assert (Hms : 0 < msPerDay) by reflexivity.
    pose proof (Z.mul_div_le (Date_now host - time) msPerDay Hms).
    pose proof (Z.mul_succ_div_gt (Date_now host - time) msPerDay Hms).
    lia.
  - exact freshnessPoints_table.
  - intros [-> | ->]; [reflexivity|].
    destruct (truthy (expiredDate l)); reflexivity.
Qed.

Lemma freshness_days_and_points_witness :
  daysSinceExpired hostJan16 (withExpired "" blankListing) = Some 999 /\
  daysSinceExpired hostJan16 (withExpired "unknown" blankListing) = None /\
  (exists d, daysSinceExpired hostJan16
               (withExpired "2025-01-14" blankListing) = Some d /\
     d * msPerDay <= Date_now hostJan16 - 1736812800000
       < (d + 1) * msPerDay) /\
  freshnessPoints (Some 2) = 2%Q /\
  freshnessPoints
    (daysSinceExpired hostJan16 (withExpired "unknown" blankListing)) = 0%Q.
Proof.
  pose proof (freshness_days_and_points hostJan16
                (withExpired "" blankListing)) as [H1 _].
  pose proof (freshness_days_and_points hostJan16
                (withExpired "unknown" blankListing)) as [_ [H2 [_ [_ H5]]]].
  pose proof (freshness_days_and_points hostJan16
                (withExpired "2025-01-14" blankListing)) as [_ [_ [H3 [H4 _]]]].
  split; [exact (H1 eq_refl)|].
  split; [exact (H2 ltac:(discriminate) eq_refl)|].
  split; [exact (H3 1736812800000 ltac:(discriminate) eq_refl)|].
  split; [exact (proj1 (H4 2) ltac:(lia))|].
  exact (H5 (or_intror eq_refl)).
Defined.

(** C3, the claim as written fails: an expiration date that is present
    but does not parse gives NaN, not 999. *)
Lemma unparseable_date_is_not_999 :
  let l := withExpired "unknown" blankListing in
  Date_parse hostJan16 (expiredDate l) = None /\
  daysSinceExpired hostJan16 l = None /\
  daysSinceExpired hostJan16 l <> Some 999.
Proof.
  repeat split. discriminate.
Qed.

(** ** The CSV normalizer *)

Lemma append_cons c s t : String c s ++ t = String c (s ++ t).
Proof. reflexivity. Qed.

Lemma rev_string_rev_string s : forall acc acc',
  rev_string (rev_string s acc) acc' = rev_string acc (s ++ acc').
Proof.
  induction s as [|c s IH]; intros acc acc'; simpl; [reflexivity|].
  rewrite IH, append_cons. reflexivity.
Qed.

Lemma rev_string_involutive s : rev_string (rev_string s "") "" = s.
Proof.
  rewrite rev_string_rev_string. simpl.
  induction s as [|c s IH]; [reflexivity|].
  rewrite append_cons, IH. reflexivity.
Qed.

Lemma allWhiteSpace_rev s : forall acc,
  allWhiteSpace (rev_string s acc) = allWhiteSpace s && allWhiteSpace acc.
Proof.
  induction s as [|c s IH]; intros acc; simpl; [reflexivity|].
  rewrite IH. simpl. destruct (isWhiteSpace c), (allWhiteSpace s); reflexivity.
Qed.

Lemma truthy_rev s : forall acc,
  truthy (rev_string s acc) = truthy s || truthy acc.
Proof.
  induction s as [|c s IH]; intros acc; simpl; [reflexivity|].
  rewrite IH. simpl. apply orb_true_r.
Qed.

Lemma quoteFree_rev s : forall acc,
  quoteFree (rev_string s acc) = quoteFree s && quoteFree acc.
Proof.
  induction s as [|c s IH]; intros acc; simpl; [reflexivity|].
  rewrite IH. simpl.
  destruct (Ascii.eqb c dquote), (quoteFree s); reflexivity.
Qed.

Lemma allWhiteSpace_trimStart s :
  allWhiteSpace (trimStart s) = allWhiteSpace s.
Proof.
  induction s as [|c s IH]; simpl; [reflexivity|].
  destruct (isWhiteSpace c) eqn:E; simpl; [exact IH | rewrite E; reflexivity].
Qed.

Lemma truthy_trimStart s : truthy (trimStart s) = negb (allWhiteSpace s).
Proof.
  induction s as [|c s IH]; simpl; [reflexivity|].
  destruct (isWhiteSpace c); simpl; [exact IH | reflexivity].
Qed.

Lemma quoteFree_trimStart s : quoteFree s = true -> quoteFree (trimStart s) = true.
Proof.
  induction s as [|c s IH]; simpl; [reflexivity|].
  intros H. destruct (isWhiteSpace c); [|exact H].
  apply IH. apply andb_true_iff in H. tauto.
Qed.

Lemma truthy_trimEnd s : truthy (trimEnd s) = negb (allWhiteSpace s).
Proof.
  unfold trimEnd. rewrite truthy_rev, truthy_trimStart, allWhiteSpace_rev.
  simpl. rewrite orb_false_r, andb_true_r. reflexivity.
Qed.

Lemma allWhiteSpace_trimEnd s :
  allWhiteSpace (trimEnd s) = allWhiteSpace s.
Proof.
  unfold trimEnd.
  rewrite allWhiteSpace_rev, allWhiteSpace_trimStart, allWhiteSpace_rev.
  simpl. rewrite !andb_true_r. reflexivity.
Qed.

Lemma truthy_trim s : truthy (trim s) = negb (allWhiteSpace s).
Proof.
  unfold trim. rewrite truthy_trimEnd, allWhiteSpace_trimStart. reflexivity.
Qed.

Lemma trim_settled c : settled (trim c).
Proof.
  unfold settled. rewrite !truthy_trim. unfold trim.
  rewrite allWhiteSpace_trimEnd, allWhiteSpace_trimStart. reflexivity.
Qed.

Lemma quoteFree_trim s : quoteFree s = true -> quoteFree (trim s) = true.
Proof.
  intros H. unfold trim, trimEnd.
  rewrite quoteFree_rev. simpl. rewrite andb_true_r.
  apply quoteFree_trimStart. rewrite quoteFree_rev. simpl.
  rewrite andb_true_r. apply quoteFree_trimStart, H.
Qed.

Lemma dropLeadingQuote_quoteFree s :
  quoteFree s = true -> dropLeadingQuote s = s.
Proof.
  destruct s as [|c s]; simpl; [reflexivity|].
  destruct (Ascii.eqb c dquote); simpl; [discriminate | reflexivity].
Qed.

Lemma stripQuotes_quoteFree s : quoteFree s = true -> stripQuotes s = s.
Proof.
  intros H. unfold stripQuotes, dropTrailingQuote.
  rewrite (dropLeadingQuote_quoteFree s H).
  rewrite dropLeadingQuote_quoteFree.
  - apply rev_string_involutive.
  - rewrite quoteFree_rev, H. reflexivity.
Qed.

Lemma quoteFree_snoc s c :
  quoteFree s = true -> Ascii.eqb c dquote = false ->
  quoteFree (s ++ String c "") = true.
Proof.
  intros Hs Hc. induction s as [|a s IH].
  - simpl. rewrite Hc. reflexivity.
  - rewrite append_cons. simpl in *.
    apply andb_true_iff in Hs as [Ha Hs]. rewrite Ha, (IH Hs). reflexivity.
Qed.

Lemma parseCSVLine_loop_values line : forall values current inQuotes,
  Forall tokenValue values -> quoteFree current = true ->
  Forall tokenValue (parseCSVLine_loop line values current inQuotes).
Proof.
  induction line as [|char rest IH]; intros values current inQuotes Hv Hc;
    simpl.
  - apply Forall_app; split; [exact Hv|].
    constructor; [|constructor]. exists current. split; [exact Hc | reflexivity].
  - destruct (Ascii.eqb char dquote) eqn:Hq; [apply IH; assumption|].
    destruct (Ascii.eqb char comma && negb inQuotes).
    + apply IH; [|reflexivity].
      apply Forall_app; split; [exact Hv|].
      constructor; [|constructor].
      exists current. split; [exact Hc | reflexivity].
    + apply IH; [exact Hv|]. apply quoteFree_snoc; assumption.
Qed.

Lemma stripQuotes_tokenValue v : tokenValue v -> stripQuotes v = v.
Proof.
  intros [c [Hc ->]]. apply stripQuotes_quoteFree, quoteFree_trim, Hc.
Qed.

Lemma parseCSVLine_values line : Forall tokenValue (parseCSVLine line).
Proof.
  unfold parseCSVLine.
  pose proof (parseCSVLine_loop_values line [] "" false
                (List.Forall_nil _) eq_refl) as H.
  induction H as [|v vs Hv _ IH]; simpl; constructor; [|exact IH].
  rewrite (stripQuotes_tokenValue v Hv). exact Hv.
Qed.

(** The final [replace] of [parseCSVLine] changes nothing: the tokenizer
    never puts a quote into a field. *)
Lemma parseCSVLine_no_strip line :
  parseCSVLine line = parseCSVLine_loop line [] "" false.
Proof.
  unfold parseCSVLine.
  pose proof (parseCSVLine_loop_values line [] "" false
                (List.Forall_nil _) eq_refl) as H.
  induction H as [|v vs Hv _ IH]; simpl; [reflexivity|].
  rewrite (stripQuotes_tokenValue v Hv), IH. reflexivity.
Qed.

Lemma tokenValue_settled v : tokenValue v -> settled v.
Proof. intros [c [_ ->]]. apply trim_settled. Qed.

Lemma valueAt_settled values index :
  Forall tokenValue values -> settled (valueAt values index).
Proof.
  intros H. unfold valueAt.
  destruct (values !! index) as [v|] eqn:E; simpl; [|reflexivity].
  apply tokenValue_settled. eapply Forall_lookup_1; eassumption.
Qed.

Lemma objSet_lookup key value (obj : gmap string string) k :
  objSet key value obj !! k = obj !! k \/
  (k = key /\ objSet key value obj !! k = Some value).
Proof.
  unfold objSet. destruct (String.eqb key "__proto__"); [left; reflexivity|].
  destruct (decide (key = k)) as [->|Hne].
  - right. split; [reflexivity|]. apply lookup_insert_eq.
  - left. apply lookup_insert_ne, Hne.
Qed.

Lemma zipRow_settled headers : forall index values (row : gmap string string),
  Forall tokenValue values ->
  (forall k v, row !! k = Some v -> settled v) ->
  forall k v, zipRow headers index values row !! k = Some v -> settled v.
Proof.
  induction headers as [|header rest IH]; intros index values row Hv Hrow;
    simpl; [exact Hrow|].
  apply IH; [exact Hv|].
  intros k v.
  destruct (objSet_lookup header (valueAt values index) row k)
    as [E | [_ E]]; rewrite E.
  - apply Hrow.
  - intros [= <-]. apply valueAt_settled, Hv.
Qed.

Lemma rowOfLine_settled headers line k v :
  rowOfLine headers line !! k = Some v -> settled v.
Proof.
  unfold rowOfLine. apply zipRow_settled.
  - apply parseCSVLine_values.
  - intros k' v'. rewrite lookup_empty. discriminate.
Qed.

Lemma zipRow_absent headers key : forall index values (row : gmap string string),
  key ∉ headers ->
  zipRow headers index values row !! key = row !! key.
Proof.
  induction headers as [|header rest IH]; intros index values row Hk;
    simpl; [reflexivity|].
  apply not_elem_of_cons in Hk as [Hne Hk].
  rewrite IH by exact Hk.
  destruct (objSet_lookup header (valueAt values index) row key)
    as [E | [E _]]; [exact E | congruence].
Qed.

Lemma field_absent headers line key :
  key ∉ headers -> field (rowOfLine headers line) key = "".
Proof.
  intros Hk. unfold field, rowOfLine.
  rewrite zipRow_absent by exact Hk. rewrite lookup_empty. reflexivity.
Qed.

(** The components kept by the source's filter are the non-empty ones. *)
Lemma assembled_parts (row : gmap string string) columns :
  (forall k v, row !! k = Some v -> settled v) ->
  map (default "") (List.filter keepPart (map (fun k => row !! k) columns))
  = List.filter truthy (map (field row) columns).
Proof.
  intros Hrow. induction columns as [|k rest IH]; simpl; [reflexivity|].
  unfold field at 1 2. destruct (row !! k) as [v|] eqn:E; simpl.
  - rewrite (Hrow k v E). destruct (truthy v); simpl; rewrite IH; reflexivity.
  - exact IH.
Qed.

Lemma parseCSV_fold headers lines : forall acc,
  fold_left (parseCSV_step headers) lines acc
  = (acc ++ List.filter (fun n => truthy (address n))
            (map (fun line => normalize (rowOfLine headers line)) lines))%list.
Proof.
  induction lines as [|line rest IH]; intros acc; simpl.
  - rewrite app_nil_r. reflexivity.
  - rewrite IH. unfold parseCSV_step. simpl.
    destruct (truthy (addressParts (rowOfLine headers line)));
      [rewrite <- app_assoc|]; reflexivity.
Qed.


(** C5. For every CSV text, the output of [parseCSV] is, in order, the
    normalized record of each data row whose assembled address is not
    empty, once each, and nothing else; the assembled address is the
    non-empty ones of the six address components joined by single
    spaces; a field whose source column is not in the header is the
    empty string. *)
Theorem parseCSV_rows (csvText : string) :
  let lines := nonBlankLines csvText in
  let headers := headerCells (hd "" lines) in
  let records :=
    map (fun line => normalize (rowOfLine headers line)) (tl lines) in
  parseCSV csvText = List.filter (fun n => truthy (address n)) records /\
  (forall line,
     address (normalize (rowOfLine headers line))
     = join " " (List.filter truthy
                   (map (field (rowOfLine headers line)) addressColumns))) /\
  (forall line column get,
     (column, get) ∈ sourceColumns -> column ∉ headers ->
     get (normalize (rowOfLine headers line)) = "").
Proof.
  intros lines headers records. split; [|split].
  - unfold parseCSV. subst records headers lines.
    destruct (nonBlankLines csvText) as [|headerLine [|l1 rest]];
      [reflexivity | reflexivity |].
    rewrite parseCSV_fold. reflexivity.
  - intros line. simpl. unfold addressParts.
    rewrite assembled_parts; [reflexivity|].
    apply rowOfLine_settled.
  - intros line column get Hin Hk.
    unfold sourceColumns in Hin.
    repeat (apply elem_of_cons in Hin as [[= -> ->] | Hin];
            [apply field_absent, Hk|]).
    inversion Hin.
Qed.

Lemma parseCSV_rows_witness :
  length (parseCSV sampleCsv) = 1%nat /\
  map address (parseCSV sampleCsv) = ["12 Main St"] /\
  zip (normalize (rowOfLine (headerCells sampleHeader) ",,Katy,3")) = "".
Proof.
  destruct (parseCSV_rows sampleCsv) as [H1 [_ H3]].
  split; [rewrite H1; reflexivity|].
  split; [rewrite H1; reflexivity|].
  refine (H3 ",,Katy,3" "Zip Code" zip _ _).
  - unfold sourceColumns. apply elem_of_cons. right.
    apply elem_of_cons. left. reflexivity.
  - intros Hin. vm_compute in Hin.
    repeat (apply elem_of_cons in Hin as [Hin | Hin]; [discriminate|]).
    inversion Hin.
Defined.

(** *** Quoted fields *)

Lemma append_nil_r s : s ++ "" = s.
Proof.
  induction s as [|c s IH]; [reflexivity|].
  rewrite append_cons, IH. reflexivity.
Qed.

Lemma append_snoc_assoc s c t : (s ++ String c "") ++ t = s ++ String c t.
Proof.
  induction s as [|a s IH]; [reflexivity|].
  rewrite !append_cons, IH. reflexivity.
Qed.

(** Inside a quoted field the tokenizer appends every character, commas
    included, until the closing quote. *)
Lemma parseCSVLine_loop_in_quotes s : forall rest values current,
  quoteFree s = true ->
  parseCSVLine_loop (s ++ rest) values current true
  = parseCSVLine_loop rest values (current ++ s) true.
Proof.
  induction s as [|c s IH]; intros rest values current Hs.
  - rewrite append_nil_r. reflexivity.
  - rewrite append_cons. simpl in *.
    apply andb_true_iff in Hs as [Hc Hs].
    apply negb_true_iff in Hc. rewrite Hc, andb_false_r.
    rewrite IH by exact Hs. rewrite append_snoc_assoc. reflexivity.
Qed.

(** A data field in double quotes is one value, whatever commas it
    holds. *)
Lemma quoted_field_is_one_value (s : string) :
  quoteFree s = true ->
  parseCSVLine (String dquote (s ++ quoteMark)) = [trim s].
Proof.
  intros Hs. rewrite parseCSVLine_no_strip. simpl.
  rewrite parseCSVLine_loop_in_quotes by exact Hs. reflexivity.
Qed.

(** The tokenizer example of the specification. *)
Example quoted_address_is_one_field :
  parseCSVLine (quoteMark ++ "123 Main St, Apt 4" ++ quoteMark)
  = ["123 Main St, Apt 4"].
Proof. reflexivity. Qed.

(** C4. [parseCSV] splits the header with a plain [split(",")]: a quoted
    header cell with a comma becomes two column names, while the data
    row keeps its quoted field whole, and the columns after it are
    misaligned.  Here [Street Name] is the third cell of the header and
    [Main St] the third field of the row, yet the address comes out as
    [12]. *)
Theorem header_split_ignores_quotes :
  headerCells quotedHeader
  = ["Street Number"; "Owner"; "Name"; "Street Name"] /\
  parseCSVLine quotedHeader
  = ["Street Number"; "Owner, Name"; "Street Name"] /\
  parseCSVLine quotedDataLine = ["12"; "Smith, J"; "Main St"] /\
  map address (parseCSV quotedHeaderCsv) = ["12"].
Proof. repeat split. Qed.

(** ** The skip-trace client *)

Lemma pollLoop_unfold net queueId fuel attempts downloadUrl :
  pollLoop net queueId fuel attempts downloadUrl =
  if attempts <? maxAttempts then
    match fuel with
    | O => fun _ => None
    | S fuel' =>
        statusResponse <~ fetchStatus net queueId ;;
        match statusResponse with
        | None => pollLoop net queueId fuel' (attempts + 1) downloadUrl
        | Some statusResult =>
            get <~ properties statusResult ;;
            if isComplete get && jsTruthy (resultUrl get)
            then ret (resultUrl get)
            else pollLoop net queueId fuel' (attempts + 1) downloadUrl
        end
    end
  else ret downloadUrl.
Proof. destruct fuel; reflexivity. Qed.


Lemma pollLoop_bounded net queueId url :
  forall fuel attempts n,
    (remaining attempts <= fuel)%nat ->
    exists r n',
      pollLoop net queueId fuel attempts url n = Some (r, n') /\
      (n <= n' <= n + remaining attempts)%nat.
Proof.
  unfold remaining, maxAttempts.
  induction fuel as [|fuel IH]; intros attempts n Hfuel;
    rewrite pollLoop_unfold; unfold maxAttempts;
    destruct (Z.ltb_spec attempts 12) as [Hlt | Hge];
    try (exfalso; lia); try (eexists _, _; split; [reflexivity | lia]).
  unfold bind, fetchStatus.
  destruct (IH (attempts + 1) (S n) ltac:(lia)) as [r [n' [E Hn]]].
  destruct (queueStatus net queueId n) as [| |statusResult]; simpl.
  - eexists _, _; split; [reflexivity | lia].
  - rewrite E. eexists _, _; split; [reflexivity | lia].
  - unfold properties. destruct (propertiesOf statusResult) as [get|]; simpl.
    + destruct (isComplete get && jsTruthy (resultUrl get)).
      * eexists _, _; split; [reflexivity | lia].
      * rewrite E. eexists _, _; split; [reflexivity | lia].
    + eexists _, _; split; [reflexivity | lia].
Qed.

Lemma enrichedFrom_refl ls : Forall2 enrichedFrom ls ls.
Proof. induction ls; constructor; [left; reflexivity | assumption]. Qed.

Lemma enrich_outcome results l n :
  enrich results l n = Some (Throw, n) \/
  exists l', enrich results l n = Some (Return l', n) /\ enrichedFrom l l'.
Proof.
  unfold enrich.
  destruct (l !! "address") as [[| | | |addr|]|]; try (left; reflexivity).
  right. destruct (List.find _ results) as [m|].
  - exists (withOwner l m). split; [reflexivity | right; exists m; reflexivity].
  - exists l. split; [reflexivity | left; reflexivity].
Qed.

Lemma mapM_enrich_outcome results ls n :
  mapM (enrich results) ls n = Some (Throw, n) \/
  exists out, mapM (enrich results) ls n = Some (Return out, n) /\
              Forall2 enrichedFrom ls out.
Proof.
  induction ls as [|l ls IH]; simpl.
  - right. exists []. split; [reflexivity | constructor].
  - unfold bind.
    destruct (enrich_outcome results l n) as [E | [l' [E Hl]]]; rewrite E;
      [left; reflexivity|].
    destruct IH as [E' | [out [E' Hout]]]; rewrite E';
      [left; reflexivity|].
    right. exists (l' :: out). split; [reflexivity | constructor; assumption].
Qed.

(** Every run of the skip trace returns: the result is the listings, each
    as it was or with owner fields attached, after at most 12 status
    requests. *)
Lemma skipTrace_outcome net listings :
  exists out n,
    skipTraceWithTracerfy net listings 0%nat = Some (Return out, n) /\
    (n <= 12)%nat /\ Forall2 enrichedFrom listings out.
Proof.
  pose proof (enrichedFrom_refl listings) as Hrefl.
  unfold skipTraceWithTracerfy, tryCatch, skipTraceBody, bind.
  destruct (submitBatch net listings) as [| |submitResult]; simpl;
    try (eexists _, _; split; [reflexivity | split; [lia | exact Hrefl]]).
  unfold properties.
  destruct (propertiesOf submitResult) as [get|]; simpl;
    try (eexists _, _; split; [reflexivity | split; [lia | exact Hrefl]]).
  destruct (pollLoop_bounded net (jsOr (get "queue_id") (get "id")) JNull
              pollFuel 0 0%nat ltac:(reflexivity)) as [r [n [E Hn]]].
  rewrite E. change (remaining 0) with 12%nat in Hn.
  destruct r as [url|];
    [|eexists _, _; split; [reflexivity | split; [lia | exact Hrefl]]].
  destruct (jsTruthy url); simpl;
    [|eexists _, _; split; [reflexivity | split; [lia | exact Hrefl]]].
  destruct (downloadResults net url) as [| |resultsCsv]; simpl;
    try (eexists _, _; split; [reflexivity | split; [lia | exact Hrefl]]).
  destruct (mapM_enrich_outcome (parseTracerfyResults resultsCsv) listings n)
    as [E' | [out [E' Hout]]]; rewrite E'.
  - eexists _, _; split; [reflexivity | split; [lia | exact Hrefl]].
  - eexists _, _; split; [reflexivity | split; [lia | exact Hout]].
Qed.

Lemma withOwner_frame (l : gmap string JsValue) m k :
  k ∉ ownerFields -> withOwner l m !! k = l !! k.
Proof.
  intros Hk. unfold ownerFields in Hk.
  rewrite !not_elem_of_cons in Hk. destruct Hk as (H1 & H2 & H3 & H4 & _).
  unfold withOwner. rewrite !lookup_insert_ne by congruence. reflexivity.
Qed.



(** C7. When a stage of the skip trace fails, that is the submission is
    answered with a non-success status, the poll loop ends without a
    download location, the download is answered with a non-success
    status, or an exception is thrown in the [try] block, then
    [skipTraceWithTracerfy] returns normally with the listings it was
    given. *)
Theorem failure_returns_original net listings
    (H : StageFailure net listings) :
  exists n, skipTraceWithTracerfy net listings 0%nat
            = Some (Return listings, n).
Proof.
  unfold skipTraceWithTracerfy, tryCatch.
  destruct H as [Hs | submitResult get url n Hs Hg Hp Hu
                 | submitResult get url n Hs Hg Hp Hd | n He].
  - unfold skipTraceBody, bind. rewrite Hs. simpl. eexists; reflexivity.
  - unfold skipTraceBody, bind, properties. rewrite Hs. simpl. rewrite Hg.
    simpl. unfold queueIdOf in Hp. rewrite Hp, Hu. simpl.
    eexists; reflexivity.
  - unfold skipTraceBody, bind, properties. rewrite Hs. simpl. rewrite Hg.
    simpl. unfold queueIdOf in Hp. rewrite Hp.
    destruct (jsTruthy url); simpl; [rewrite Hd; simpl|]; eexists; reflexivity.
  - rewrite He. eexists; reflexivity.
Qed.




Lemma failure_returns_original_witness :
  (exists n, skipTraceWithTracerfy rejectingNet [oakListing] 0%nat
             = Some (Return [oakListing], n)) /\
  (exists n, skipTraceWithTracerfy unreachableNet [oakListing] 0%nat
             = Some (Return [oakListing], n)) /\
  (exists n, skipTraceWithTracerfy stalledNet [oakListing] 0%nat
             = Some (Return [oakListing], n)).
Proof.
  split; [|split].
  - apply failure_returns_original. apply SubmitNotOk. reflexivity.
  - apply failure_returns_original. apply (ExceptionThrown _ _ 0%nat).
    reflexivity.
  - apply failure_returns_original.
    eapply (NoDownloadUrl stalledNet [oakListing] _ _ JNull 12%nat);
      reflexivity.
Defined.

(** The listings of the pipeline carry no owner field before the skip
    trace. *)
Lemma scoredListing_no_owner_fields l score file k :
  k ∈ ownerFields -> scoredListing l score file !! k = None.
Proof.
  unfold ownerFields. rewrite !elem_of_cons.
  intros [-> | [-> | [-> | [-> | Hk]]]]; try reflexivity. inversion Hk.
Qed.

(** What holds of the match-back as the specification has it: the phone
    is the first non-empty of mobile, landline and generic phone, and a
    listing without a match is returned as it is. *)
Lemma ownerPhone_priority (m : gmap string string) :
  (truthy (field m "mobile_1") = true ->
   ownerPhone m = field m "mobile_1") /\
  (truthy (field m "mobile_1") = false ->
   truthy (field m "landline_1") = true ->
   ownerPhone m = field m "landline_1") /\
  (truthy (field m "mobile_1") = false ->
   truthy (field m "landline_1") = false ->
   ownerPhone m = field m "phone_1").
Proof.
  unfold ownerPhone, orField, field.
  destruct (m !! "mobile_1") as [[|? ?]|], (m !! "landline_1") as [[|? ?]|],
    (m !! "phone_1") as [[|? ?]|]; simpl;
    repeat split; intros; try reflexivity; discriminate.
Qed.

Lemma enrich_unmatched results (l : gmap string JsValue) addr n :
  l !! "address" = Some (JString addr) ->
  List.find (addressMatches (trim (toLowerCase addr))) results = None ->
  enrich results l n = Some (Return l, n).
Proof. intros Ha Hf. unfold enrich. rewrite Ha, Hf. reflexivity. Qed.

(** The owner name never is the combined name field: it is empty or
    made of the two name parts. *)
Lemma ownerName_reads_name_parts (m : gmap string string) :
  ownerName m = "" \/
  ownerName m = trim (field m "first_name" ++ " " ++ field m "last_name").
Proof.
  unfold ownerName. destruct (fieldTruthy _); [right | left]; reflexivity.
Qed.

(** C8. In [ownerName] the test is [owner_name || first_name] and both
    branches read only the name parts: a contact row with a combined
    name and no first name yields the empty string, with both it yields
    the name parts.  The phone is the first non-empty of mobile, landline
    and generic phone. *)
Theorem owner_name_ignores_combined_field :
  contactRow !! "owner_name" = Some "John Smith" /\
  ownerName contactRow = "" /\
  ownerName trustRow = "John Smith" /\
  ownerPhone contactRow = "555-0100" /\
  skipTraceWithTracerfy contactsNet [oakListing] 0%nat
    = Some (Return [withOwner oakListing contactRow], 1%nat) /\
  withOwner oakListing contactRow !! "ownerName" = Some (JString "").
Proof. repeat split. Qed.

(** * Further properties *)

(** ** The tokenizer *)

Lemma parseCSVLine_loop_quote_free line : forall values current,
  quoteFree line = true ->
  parseCSVLine_loop line values current false
  = (values ++ map trim (split_loop comma line current))%list.
Proof.
  induction line as [|char rest IH]; intros values current Hq; simpl.
  - reflexivity.
  - simpl in Hq. apply andb_true_iff in Hq as [Hc Hq].
    apply negb_true_iff in Hc. rewrite Hc.
    destruct (Ascii.eqb char comma); simpl.
    + rewrite IH by exact Hq. rewrite <- app_assoc. reflexivity.
    + apply IH, Hq.
Qed.

(** X1. On a line without a double quote, [parseCSVLine] is
    [split(",")] followed by [trim] on every piece. *)
Theorem parseCSVLine_quote_free (line : string) :
  quoteFree line = true ->
  parseCSVLine line = map trim (split comma line).
Proof.
  intros Hq. rewrite parseCSVLine_no_strip.
  rewrite parseCSVLine_loop_quote_free by exact Hq. reflexivity.
Qed.

Lemma parseCSVLine_loop_length line : forall values current inQuotes,
  length (parseCSVLine_loop line values current inQuotes)
  = (length values + S (fieldSeparators line inQuotes))%nat.
Proof.
  induction line as [|char rest IH]; intros values current inQuotes; simpl.
  - rewrite length_app. simpl. lia.
  - destruct (Ascii.eqb char dquote); [apply IH|].
    destruct (Ascii.eqb char comma && negb inQuotes).
    + rewrite IH, length_app. simpl. lia.
    + apply IH.
Qed.

(** X3. [parseCSVLine] returns one value more than the line has commas
    outside double quotes; it never returns an empty list. *)
Theorem parseCSVLine_length (line : string) :
  length (parseCSVLine line) = S (fieldSeparators line false).
Proof.
  unfold parseCSVLine. rewrite length_map, parseCSVLine_loop_length.
  reflexivity.
Qed.

(* trim idempotence *)
Lemma headOk_trimStart s : headOk (trimStart s).
Proof.
  induction s as [|c s IH]; simpl; [exact I|].
  destruct (isWhiteSpace c) eqn:E; [exact IH | exact E].
Qed.

Lemma trimStart_headOk s : headOk s -> trimStart s = s.
Proof. destruct s as [|c s]; simpl; [reflexivity|]. intros ->. reflexivity. Qed.

Lemma rev_string_acc s : forall acc,
  rev_string s acc = rev_string s "" ++ acc.
Proof.
  induction s as [|c s IH]; intros acc; simpl; [reflexivity|].
  rewrite IH, (IH (String c "")). rewrite append_snoc_assoc. reflexivity.
Qed.

Lemma append_assoc s t u : (s ++ t) ++ u = s ++ t ++ u.
Proof.
  induction s as [|c s IH]; [reflexivity|].
  rewrite !append_cons, IH. reflexivity.
Qed.

Lemma rev_string_app s t :
  rev_string (s ++ t) "" = rev_string t "" ++ rev_string s "".
Proof.
  induction s as [|c s IH].
  - rewrite append_nil_r. reflexivity.
  - rewrite append_cons. simpl.
    rewrite (rev_string_acc (s ++ t)), (rev_string_acc s), IH.
    apply append_assoc.
Qed.

Lemma trimStart_suffix s : exists w, s = w ++ trimStart s.
Proof.
  induction s as [|c s [w IH]]; simpl; [exists ""; reflexivity|].
  destruct (isWhiteSpace c).
  - exists (String c w). rewrite append_cons, <- IH. reflexivity.
  - exists "". reflexivity.
Qed.

Lemma trimEnd_prefix s : exists w, s = trimEnd s ++ w.
Proof.
  destruct (trimStart_suffix (rev_string s "")) as [w Hw].
  exists (rev_string w "").
  rewrite <- (rev_string_involutive s) at 1. rewrite Hw at 1.
  rewrite rev_string_app. reflexivity.
Qed.

Lemma headOk_trimEnd s : headOk s -> headOk (trimEnd s).
Proof.
  intros H. destruct (trimEnd_prefix s) as [w Hw].
  destruct (trimEnd s) as [|c p]; [exact I|].
  rewrite Hw in H. exact H.
Qed.

Lemma trimEnd_idempotent s : trimEnd (trimEnd s) = trimEnd s.
Proof.
  unfold trimEnd. rewrite rev_string_involutive.
  rewrite (trimStart_headOk _ (headOk_trimStart _)). reflexivity.
Qed.

Lemma trim_idempotent s : trim (trim s) = trim s.
Proof.
  unfold trim.
  rewrite (trimStart_headOk (trimEnd (trimStart s)))
    by apply headOk_trimEnd, headOk_trimStart.
  apply trimEnd_idempotent.
Qed.

(** X2. No value returned by [parseCSVLine] holds a double quote, and
    every value is trimmed already. *)
Theorem parseCSVLine_values_clean (line : string) :
  Forall (fun v => quoteFree v = true /\ trim v = v) (parseCSVLine line).
Proof.
  eapply Forall_impl; [apply parseCSVLine_values|].
  intros v [c [Hc ->]].
  split; [apply quoteFree_trim, Hc | apply trim_idempotent].
Qed.

(** *** The header zip *)

Lemma zipRow_app a : forall b index values (row : gmap string string),
  zipRow (a ++ b) index values row
  = zipRow b (index + length a) values (zipRow a index values row).
Proof.
  induction a as [|h a IH]; intros b index values row; simpl.
  - rewrite Nat.add_0_r. reflexivity.
  - rewrite IH. f_equal. lia.
Qed.

(** X4. In the object built for a data row, a column name other than
    [__proto__] reads the value at the position of its last occurrence in
    the header, the empty string when the row is shorter. *)
Theorem rowOfLine_lookup (pre post : list string) (h line : string) :
  h <> "__proto__" -> h ∉ post ->
  rowOfLine (pre ++ h :: post) line !! h
  = Some (valueAt (parseCSVLine line) (length pre)).
Proof.
  intros Hproto Hpost. unfold rowOfLine.
  rewrite zipRow_app. simpl.
  rewrite zipRow_absent by exact Hpost.
  unfold objSet. apply String.eqb_neq in Hproto. rewrite Hproto.
  apply lookup_insert_eq.
Qed.

(** *** Blank lines *)

Lemma split_loop_app sep a : forall b current,
  split_loop sep (a ++ String sep b) current
  = (split_loop sep a current ++ split_loop sep b "")%list.
Proof.
  induction a as [|c a IH]; intros b current.
  - simpl. rewrite Ascii.eqb_refl. reflexivity.
  - rewrite append_cons. simpl. destruct (Ascii.eqb c sep).
    + rewrite IH. reflexivity.
    + apply IH.
Qed.

Lemma nonBlankLines_app a b :
  nonBlankLines (a ++ nl ++ b) = (nonBlankLines a ++ nonBlankLines b)%list.
Proof.
  unfold nonBlankLines, split, nl.
  change (String newline "" ++ b) with (String newline b).
  rewrite split_loop_app. apply List.filter_app.
Qed.

Lemma allWhiteSpace_snoc s c :
  allWhiteSpace s = true -> isWhiteSpace c = true ->
  allWhiteSpace (s ++ String c "") = true.
Proof.
  intros Hs Hc. induction s as [|a s IH].
  - simpl. rewrite Hc. reflexivity.
  - rewrite append_cons. simpl in *.
    apply andb_true_iff in Hs as [Ha Hs]. rewrite Ha, (IH Hs). reflexivity.
Qed.

Lemma split_loop_blank sep w : forall current,
  allWhiteSpace w = true -> allWhiteSpace current = true ->
  Forall (fun piece => allWhiteSpace piece = true) (split_loop sep w current).
Proof.
  induction w as [|c w IH]; intros current Hw Hc; simpl.
  - constructor; [exact Hc | constructor].
  - simpl in Hw. apply andb_true_iff in Hw as [Hcw Hw].
    destruct (Ascii.eqb c sep).
    + constructor; [exact Hc|]. apply IH; [exact Hw | reflexivity].
    + apply IH; [exact Hw|]. apply allWhiteSpace_snoc; assumption.
Qed.

Lemma nonBlankLines_blank w : allWhiteSpace w = true -> nonBlankLines w = [].
Proof.
  intros Hw. unfold nonBlankLines, split.
  pose proof (split_loop_blank newline w "" Hw eq_refl) as H.
  induction H as [|piece pieces Hp _ IH]; simpl; [reflexivity|].
  rewrite truthy_trim, Hp. simpl. exact IH.
Qed.

Lemma parseCSV_lines a b :
  nonBlankLines a = nonBlankLines b -> parseCSV a = parseCSV b.
Proof. intros H. unfold parseCSV. rewrite H. reflexivity. Qed.

(** X5. Lines of white space only do not change what [parseCSV] returns,
    between two lines, at the end or at the start of the text. *)
Theorem parseCSV_ignores_blank_lines (a w b : string) :
  allWhiteSpace w = true ->
  parseCSV (a ++ nl ++ w ++ nl ++ b) = parseCSV (a ++ nl ++ b) /\
  parseCSV (a ++ nl ++ w) = parseCSV a /\
  parseCSV (w ++ nl ++ a) = parseCSV a.
Proof.
  intros Hw. pose proof (nonBlankLines_blank w Hw) as Hb.
  split; [|split]; apply parseCSV_lines;
    rewrite !nonBlankLines_app, Hb; simpl; rewrite ?app_nil_r; reflexivity.
Qed.

(** *** What every record of [parseCSV] satisfies *)

Lemma cleanValue_empty : cleanValue "".
Proof. split; reflexivity. Qed.

Lemma tokenValue_clean v : tokenValue v -> cleanValue v.
Proof.
  intros [c [Hc ->]]. split; [apply quoteFree_trim, Hc | apply trim_idempotent].
Qed.

Lemma zipRow_clean headers : forall index values (row : gmap string string),
  Forall tokenValue values ->
  (forall k v, row !! k = Some v -> cleanValue v) ->
  forall k v, zipRow headers index values row !! k = Some v -> cleanValue v.
Proof.
  induction headers as [|header rest IH]; intros index values row Hv Hrow;
    simpl; [exact Hrow|].
  apply IH; [exact Hv|].
  intros k v.
  destruct (objSet_lookup header (valueAt values index) row k)
    as [E | [_ E]]; rewrite E.
  - apply Hrow.
  - intros [= <-]. unfold valueAt.
    destruct (values !! index) as [x|] eqn:Ex; simpl.
    + apply tokenValue_clean. eapply Forall_lookup_1; eassumption.
    + apply cleanValue_empty.
Qed.

Lemma rowOfLine_clean headers line k v :
  rowOfLine headers line !! k = Some v -> cleanValue v.
Proof.
  unfold rowOfLine. apply zipRow_clean.
  - apply parseCSVLine_values.
  - intros k' v'. rewrite lookup_empty. discriminate.
Qed.

Lemma field_clean headers line k :
  cleanValue (field (rowOfLine headers line) k).
Proof.
  unfold field. destruct (rowOfLine headers line !! k) as [v|] eqn:E; simpl.
  - eapply rowOfLine_clean, E.
  - apply cleanValue_empty.
Qed.

Lemma quoteFree_app s t :
  quoteFree (s ++ t) = quoteFree s && quoteFree t.
Proof.
  induction s as [|c s IH]; [reflexivity|].
  rewrite append_cons. simpl. rewrite IH. apply andb_assoc.
Qed.

Lemma trimEnd_headOk_rev s : headOk (rev_string s "") -> trimEnd s = s.
Proof.
  intros H. unfold trimEnd. rewrite (trimStart_headOk _ H).
  apply rev_string_involutive.
Qed.

Lemma headOk_rev_trim s : headOk (rev_string (trim s) "").
Proof.
  unfold trim, trimEnd. rewrite rev_string_involutive.
  apply headOk_trimStart.
Qed.

Lemma headOk_app s t : s <> "" -> headOk s -> headOk (s ++ t).
Proof. destruct s as [|c s]; [congruence|]. intros _ H. exact H. Qed.

Lemma rev_string_nonempty s : s <> "" -> rev_string s "" <> "".
Proof.
  intros H E. apply H. rewrite <- (rev_string_involutive s), E. reflexivity.
Qed.

Lemma join_parts parts :
  Forall addressPart parts -> parts <> [] ->
  addressPart (join " " parts).
Proof.
  induction 1 as [|p rest Hp Hrest IH]; [congruence|]. intros _.
  destruct Hp as (Hne & Hq & Hh & Hr).
  destruct rest as [|p' rest]; [simpl; repeat split; assumption|].
  destruct (IH ltac:(discriminate)) as (Hne' & Hq' & Hh' & Hr').
  change (join " " (p :: p' :: rest)) with (p ++ " " ++ join " " (p' :: rest)).
  set (tail := join " " (p' :: rest)) in *.
  repeat split.
  - destruct p; [congruence|]. rewrite append_cons. discriminate.
  - rewrite !quoteFree_app, Hq, Hq'. reflexivity.
  - apply headOk_app; assumption.
  - rewrite !rev_string_app.
    pose proof (rev_string_nonempty tail Hne') as Hrev.
    apply headOk_app; [|apply headOk_app; assumption].
    destruct (rev_string tail ""); [congruence|].
    rewrite append_cons. discriminate.
Qed.

Lemma cleanValue_part v : cleanValue v -> v <> "" -> addressPart v.
Proof.
  intros [Hq Ht] Hne. repeat split; try assumption.
  - rewrite <- Ht. unfold trim. apply headOk_trimEnd, headOk_trimStart.
  - rewrite <- Ht. apply headOk_rev_trim.
Qed.

Lemma addressPart_clean p : addressPart p -> cleanValue p.
Proof.
  intros (_ & Hq & Hh & Hr). split; [exact Hq|].
  unfold trim. rewrite (trimStart_headOk p Hh). apply trimEnd_headOk_rev, Hr.
Qed.

Lemma kept_parts (row : gmap string string) columns :
  (forall k v, row !! k = Some v -> cleanValue v) ->
  Forall addressPart
    (map (default "")
       (List.filter keepPart (map (fun k => row !! k) columns))).
Proof.
  intros Hrow. induction columns as [|k rest IH]; simpl; [constructor|].
  destruct (row !! k) as [v|] eqn:E; simpl; [|exact IH].
  destruct (truthy v && truthy (trim v)) eqn:Ht; simpl; [|exact IH].
  constructor; [|exact IH].
  apply cleanValue_part; [eapply Hrow, E|].
  apply andb_true_iff in Ht as [Ht _]. apply truthy_nonempty, Ht.
Qed.

Lemma address_clean headers line :
  cleanValue (addressParts (rowOfLine headers line)).
Proof.
  unfold addressParts.
  pose proof (kept_parts (rowOfLine headers line) addressColumns
                (rowOfLine_clean headers line)) as H.
  destruct (map _ _) as [|p ps] eqn:E; [apply cleanValue_empty|].
  apply addressPart_clean, join_parts; [exact H | discriminate].
Qed.

Lemma normalize_clean headers line :
  Forall cleanValue (listingFields (normalize (rowOfLine headers line))).
Proof.
  unfold listingFields, normalize; simpl.
  repeat (constructor;
          [first [apply address_clean | apply field_clean
                 | split; reflexivity]|]).
  constructor.
Qed.

Lemma parseCSV_record_clean (csvText : string) (n : Listing) :
  n ∈ parseCSV csvText ->
  address n <> "" /\ state n = "TX" /\ Forall cleanValue (listingFields n).
Proof.
  unfold parseCSV.
  destruct (nonBlankLines csvText) as [|headerLine [|l1 rest]];
    [intros H; inversion H | intros H; inversion H |].
  rewrite parseCSV_fold, List.app_nil_l. intros Hn.
  apply list_elem_of_In, List.filter_In in Hn as [Hin Ht].
  apply List.in_map_iff in Hin as [line [<- _]].
  split; [apply truthy_nonempty, Ht|].
  split; [reflexivity | apply normalize_clean].
Qed.

(** X6. Every record returned by [parseCSV] has an address that is not
    empty and the state TX, and none of its strings holds a double quote
    or has white space at either end. *)
Theorem parseCSV_records_clean (csvText : string) :
  Forall (fun n => address n <> "" /\ state n = "TX" /\
                   Forall cleanValue (listingFields n))
         (parseCSV csvText).
Proof.
  apply Forall_forall. intros n Hn.
  destruct (parseCSV_record_clean csvText n Hn) as (Ha & Hs & Hf).
  repeat split; assumption.
Qed.

(** *** Few lines *)

Lemma split_loop_no_sep sep s : forall current,
  hasChar sep s = false -> split_loop sep s current = [current ++ s].
Proof.
  induction s as [|c s IH]; intros current H; simpl.
  - rewrite append_nil_r. reflexivity.
  - simpl in H. apply orb_false_iff in H as [Hc Hs]. rewrite Hc.
    rewrite IH by exact Hs. rewrite append_snoc_assoc. reflexivity.
Qed.

(** X7. [parseCSV] returns at most one record for each non-blank line
    after the header, and none for a text without a newline. *)
Theorem parseCSV_at_most_data_lines (csvText : string) :
  (length (parseCSV csvText) <= pred (length (nonBlankLines csvText)))%nat /\
  (hasChar newline csvText = false -> parseCSV csvText = []).
Proof.
  split.
  - unfold parseCSV.
    destruct (nonBlankLines csvText) as [|headerLine [|l1 rest]];
      [simpl; lia | simpl; lia |].
    rewrite parseCSV_fold, List.app_nil_l.
    etransitivity; [apply List.filter_length_le|].
    rewrite length_map. simpl. lia.
  - intros H. unfold parseCSV, nonBlankLines, split.
    rewrite split_loop_no_sep by exact H. simpl.
    destruct (truthy _); reflexivity.
Qed.

(** *** The batch file read back *)

Lemma parseCSVLine_loop_quoted s rest values :
  quoteFree s = true ->
  parseCSVLine_loop (quoted s ++ "," ++ rest) values "" false
  = parseCSVLine_loop rest (values ++ [trim s]) "" false.
Proof.
  intros Hs. unfold quoted, quoteMark.
  change (String dquote "" ++ s ++ String dquote "")
    with (String dquote (s ++ String dquote "")).
  rewrite append_cons, append_assoc. simpl.
  rewrite parseCSVLine_loop_in_quotes by exact Hs.
  rewrite append_cons. simpl. reflexivity.
Qed.

Lemma parseCSVLine_loop_quoted_last s values :
  quoteFree s = true ->
  parseCSVLine_loop (quoted s) values "" false = (values ++ [trim s])%list.
Proof.
  intros Hs. unfold quoted, quoteMark.
  change (String dquote "" ++ s ++ String dquote "")
    with (String dquote (s ++ String dquote "")).
  simpl. rewrite parseCSVLine_loop_in_quotes by exact Hs. reflexivity.
Qed.

Lemma csvRow_reads_back hostText (l : gmap string JsValue)
    (a c s z : string) :
  l !! "address" = Some (JString a) -> l !! "city" = Some (JString c) ->
  l !! "state" = Some (JString s) -> l !! "zip" = Some (JString z) ->
  quoteFree a = true -> quoteFree c = true ->
  quoteFree s = true -> quoteFree z = true ->
  parseCSVLine (csvRow hostText l)
  = [trim a; trim c; trim s; trim z; ""; ""; ""; ""; ""].
Proof.
  intros Ha Hc Hs Hz Qa Qc Qs Qz.
  rewrite parseCSVLine_no_strip. unfold csvRow, prop.
  rewrite Ha, Hc, Hs, Hz. simpl default. simpl templateText.
  rewrite !parseCSVLine_loop_quoted by first [assumption | reflexivity].
  rewrite parseCSVLine_loop_quoted_last by reflexivity.
  reflexivity.
Qed.

(** X8. The row that [skipTraceWithTracerfy] writes into the batch file
    for a listing that [parseCSV] returned is read back by [parseCSVLine]
    as the listing's address, city, TX and zip, then five empty fields. *)
Theorem csvRow_of_parsed (hostText : JsValue -> string) (csvText : string)
    (n : Listing) (score : Q) (file : string) :
  n ∈ parseCSV csvText ->
  parseCSVLine (csvRow hostText (scoredListing n score file))
  = [address n; city n; "TX"; zip n; ""; ""; ""; ""; ""].
Proof.
  intros Hn.
  destruct (parseCSV_record_clean csvText n Hn) as (_ & Hst & Hf).
  unfold listingFields in Hf.
  inversion Hf as [|? ? [Qa Ta] Hf1]; subst.
  inversion Hf1 as [|? ? [Qc Tc] Hf2]; subst.
  inversion Hf2 as [|? ? [Qz Tz] Hf3]; subst.
  rewrite (csvRow_reads_back hostText _ (address n) (city n) (state n) (zip n));
    try reflexivity; try assumption.
  - rewrite Ta, Tc, Tz, Hst. reflexivity.
  - rewrite Hst. reflexivity.
Qed.

(** ** More on the rubric *)

Lemma calculateUrgencyScore_rawScore host l :
  (calculateUrgencyScore host l == rawScore host l)%Q.
Proof.
  destruct (rawScore_halves host l) as [h [Hh Hq]].
  unfold calculateUrgencyScore.
  assert (E : (Math_round (rawScore host l * 10) / 10 == h # 2)%Q).
  { rewrite <- (round_tenths h). unfold Math_round.
    rewrite Hq. reflexivity. }
  unfold Math_min.
  destruct (Qle_bool 10 _) eqn:Hle; [|rewrite E, Hq; reflexivity].
  apply Qle_bool_iff in Hle. rewrite E in Hle.
  unfold Qle in Hle; simpl in Hle.
  assert (h = 20) by lia. subst h. rewrite Hq. reflexivity.
Qed.

(** X9. The rounding and the cap at the end of [calculateUrgencyScore]
    change nothing: the score is the accumulated sum, a multiple of 0.5
    between 1 and 10. *)
Theorem rounding_and_cap_change_nothing (host : Host) (l : Listing) :
  (calculateUrgencyScore host l == rawScore host l)%Q /\
  exists h : Z, 2 <= h <= 20 /\ (calculateUrgencyScore host l == h # 2)%Q.
Proof.
  split; [apply calculateUrgencyScore_rawScore|].
  apply calculateUrgencyScore_halves.
Qed.

Lemma geb_true a b : (a >=? b) = true <-> b <= a.
Proof. rewrite Z.geb_leb. apply Z.leb_le. Qed.

Lemma geb_false a b : (a >=? b) = false <-> a < b.
Proof. rewrite Z.geb_leb. apply Z.leb_gt. Qed.

Lemma gtb_true a b : (a >? b) = true <-> b < a.
Proof. rewrite Z.gtb_ltb. apply Z.ltb_lt. Qed.

Lemma gtb_false a b : (a >? b) = false <-> a <= b.
Proof. rewrite Z.gtb_ltb. apply Z.ltb_ge. Qed.

Ltac case_Z :=
  match goal with
  | |- context [?a >=? ?b] =>
      let E := fresh "E" in
      destruct (a >=? b) eqn:E;
      [apply geb_true in E | apply geb_false in E]
  | |- context [?a >? ?b] =>
      let E := fresh "E" in
      destruct (a >? b) eqn:E;
      [apply gtb_true in E | apply gtb_false in E]
  | |- context [?a <=? ?b] =>
      let E := fresh "E" in
      destruct (Z.leb_spec a b) as [E | E]
  | |- context [?a <? ?b] =>
      let E := fresh "E" in
      destruct (Z.ltb_spec a b) as [E | E]
  | |- context [?a =? ?b] =>
      let E := fresh "E" in
      destruct (Z.eqb_spec a b) as [E | E]
  end.

(** Case analysis on every integer comparison of the goal; the cases
    that contradict each other are closed on the way. *)
Ltac cases_Z := repeat (case_Z; try (exfalso; lia)).

(** X10. The motivation factor never falls when the days on market
    grow. *)
Theorem motivationPoints_monotone (dom dom' : Z) :
  dom <= dom' -> (motivationPoints dom <= motivationPoints dom')%Q.
Proof.
  intros H. unfold motivationPoints. cases_Z;
    first [exfalso; lia | unfold Qle; simpl; lia].
Qed.

(** X11. Above zero, the price factor never rises when the price grows. *)
Theorem pricePoints_antitone (p p' : Z) :
  0 < p -> p <= p' -> (pricePoints p' <= pricePoints p)%Q.
Proof.
  intros H0 H. unfold pricePoints. cases_Z; simpl;
    first [exfalso; lia | unfold Qle; simpl; lia].
Qed.

Lemma Qgtb_true (x y : Q) : Qgtb x y = true <-> (y < x)%Q.
Proof.
  unfold Qgtb. rewrite negb_true_iff. split.
  - intros H. apply Qnot_le_lt. intros Hle.
    apply Qle_bool_iff in Hle. congruence.
  - intros H. destruct (Qle_bool x y) eqn:E; [|reflexivity].
    apply Qle_bool_iff in E. exfalso. eapply Qlt_not_le; eassumption.
Qed.

Lemma Qgtb_false (x y : Q) : Qgtb x y = false <-> (x <= y)%Q.
Proof.
  unfold Qgtb. rewrite negb_false_iff. apply Qle_bool_iff.
Qed.

Lemma Qgtb_three_halves (cdom dom : Z) :
  Qgtb (inject_Z cdom) (inject_Z dom * (3 # 2)) = true <-> 3 * dom < 2 * cdom.
Proof.
  rewrite Qgtb_true. unfold Qlt, Qmult, inject_Z; simpl. lia.
Qed.

Lemma Qgtb_three_halves_false (cdom dom : Z) :
  Qgtb (inject_Z cdom) (inject_Z dom * (3 # 2)) = false <-> 2 * cdom <= 3 * dom.
Proof.
  rewrite Qgtb_false. unfold Qle, Qmult, inject_Z; simpl. lia.
Qed.

Ltac cases_ratio :=
  repeat match goal with
         | |- context [Qgtb (inject_Z ?c) (inject_Z ?d * (3 # 2))] =>
             let E := fresh "E" in
             destruct (Qgtb (inject_Z c) (inject_Z d * (3 # 2))) eqn:E;
             [apply Qgtb_three_halves in E
             | apply Qgtb_three_halves_false in E]
         end.

(** X12. For a given DOM, the repeat-failure factor never falls when the
    CDOM grows. *)
Theorem repeatFailurePoints_monotone (cdom cdom' dom : Z) :
  cdom <= cdom' ->
  (repeatFailurePoints cdom dom <= repeatFailurePoints cdom' dom)%Q.
Proof.
  intros H. unfold repeatFailurePoints. cases_Z; cases_ratio;
    first [exfalso; lia | unfold Qle; simpl; lia].
Qed.

Lemma freshnessPoints_antitone (d d' : Z) :
  d <= d' -> (freshnessPoints (Some d') <= freshnessPoints (Some d))%Q.
Proof.
  intros H. unfold freshnessPoints, leNum. cases_Z;
    first [exfalso; lia | unfold Qle; simpl; lia].
Qed.

(** X13. With the same date parser and the same calendar year, a later
    clock never gives a listing a higher score. *)
Theorem score_never_rises_with_time (host host' : Host) (l : Listing) :
  Date_parse host' = Date_parse host ->
  getFullYear host' = getFullYear host ->
  Date_now host <= Date_now host' ->
  (calculateUrgencyScore host' l <= calculateUrgencyScore host l)%Q.
Proof.
  intros Hp Hy Hn. rewrite !calculateUrgencyScore_rawScore.
  unfold rawScore, propertyAgeOf. rewrite Hy.
  repeat apply Qplus_le_compat; try apply Qle_refl.
  unfold daysSinceExpired. rewrite Hp.
  destruct (truthy (expiredDate l)); [|apply Qle_refl].
  destruct (Date_parse host (expiredDate l)) as [time|]; [|apply Qle_refl].
  apply freshnessPoints_antitone.
  apply Z.div_le_mono; [reflexivity | lia].
Qed.









(** ** More on the skip-trace client *)

Lemma pollLoop_completes net queueId url u k :
  completesWith (queueStatus net queueId k) = Some u ->
  forall fuel attempts n,
    (n <= k)%nat -> attempts + Z.of_nat (k - n) < maxAttempts ->
    (k - n < fuel)%nat ->
    (forall i, (n <= i < k)%nat ->
               keepsPolling (queueStatus net queueId i) = true) ->
    pollLoop net queueId fuel attempts url n = Some (Return u, S k).
Proof.
  intros Hdone. unfold maxAttempts.
  induction fuel as [|fuel IH]; intros attempts n Hn Hbudget Hfuel Hkeep;
    [lia|].
  rewrite pollLoop_unfold. unfold maxAttempts.
  destruct (Z.ltb_spec attempts 12) as [_ | Hge]; [|lia].
  unfold bind, fetchStatus.
  destruct (decide (n = k)) as [-> | Hne].
  - unfold completesWith in Hdone.
    destruct (queueStatus net queueId k) as [| |statusResult]; try discriminate.
    simpl. unfold properties.
    destruct (propertiesOf statusResult) as [get|]; [|discriminate].
    simpl. destruct (isComplete get && jsTruthy (resultUrl get));
      [|discriminate].
    injection Hdone as <-. reflexivity.
  - pose proof (Hkeep n ltac:(lia)) as Hk. unfold keepsPolling in Hk.
    assert (Hrec : pollLoop net queueId fuel (attempts + 1) url (S n)
                   = Some (Return u, S k)).
    { apply IH; [lia | lia | lia |]. intros i Hi. apply Hkeep. lia. }
    destruct (queueStatus net queueId n) as [| |statusResult]; simpl;
      [discriminate | exact Hrec |].
    unfold properties.
    destruct (propertiesOf statusResult) as [get|]; [|discriminate].
    simpl. apply negb_true_iff in Hk. rewrite Hk. exact Hrec.
Qed.

(** X15. When the first [k] status responses keep the loop polling and
    the next one, within the budget, reports completion with a result
    location, the poll loop returns that location after [k + 1] status
    requests. *)
Theorem poll_stops_at_first_completion net queueId (k : nat) (u : JsValue) :
  (k < 12)%nat ->
  (forall i, (i < k)%nat -> keepsPolling (queueStatus net queueId i) = true) ->
  completesWith (queueStatus net queueId k) = Some u ->
  pollLoop net queueId pollFuel 0 JNull 0%nat = Some (Return u, S k).
Proof.
  intros Hk Hkeep Hdone.
  apply (pollLoop_completes net queueId JNull u k Hdone).
  - lia.
  - unfold maxAttempts. lia.
  - change pollFuel with 12%nat. lia.
  - intros i Hi. apply Hkeep. lia.
Qed.

Lemma pollLoop_ext net net' queueId url :
  forall fuel attempts n,
    (forall i, (n <= i < n + remaining attempts)%nat ->
               queueStatus net queueId i = queueStatus net' queueId i) ->
    pollLoop net queueId fuel attempts url n
    = pollLoop net' queueId fuel attempts url n.
Proof.
  unfold remaining, maxAttempts.
  induction fuel as [|fuel IH]; intros attempts n Hsame;
    [rewrite (pollLoop_unfold net _ O), (pollLoop_unfold net' _ O)
    |rewrite (pollLoop_unfold net _ (S fuel)),
       (pollLoop_unfold net' _ (S fuel))];
    unfold maxAttempts;
    destruct (Z.ltb_spec attempts 12) as [Hlt | Hge]; try reflexivity.
  unfold bind, fetchStatus.
  rewrite <- (Hsame n) by lia.
  assert (Hrec : pollLoop net queueId fuel (attempts + 1) url (S n)
                 = pollLoop net' queueId fuel (attempts + 1) url (S n)).
  { apply IH. intros i Hi. apply Hsame. lia. }
  destruct (queueStatus net queueId n) as [| |statusResult]; simpl;
    [reflexivity | exact Hrec |].
  unfold properties. destruct (propertiesOf statusResult) as [get|]; simpl;
    [|reflexivity].
  destruct (isComplete get && jsTruthy (resultUrl get));
    [reflexivity | exact Hrec].
Qed.


(** X16. The skip trace depends on the first twelve status responses
    only: two services that agree on them, on the submission and on the
    download give the same result. *)
Theorem only_twelve_status_responses_matter net net' listings :
  submitBatch net' = submitBatch net ->
  downloadResults net' = downloadResults net ->
  (forall queueId i, (i < 12)%nat ->
     queueStatus net' queueId i = queueStatus net queueId i) ->
  skipTraceWithTracerfy net' listings 0%nat
  = skipTraceWithTracerfy net listings 0%nat.
Proof.
  intros Hs Hd Hq.
  unfold skipTraceWithTracerfy, tryCatch, skipTraceBody, bind.
  rewrite Hs, Hd.
  destruct (submitBatch net listings) as [| |submitResult]; simpl;
    try reflexivity.
  unfold properties.
  destruct (propertiesOf submitResult) as [get|]; simpl; try reflexivity.
  rewrite (pollLoop_ext net' net _ JNull pollFuel 0 0%nat); [reflexivity|].
  intros i Hi. apply Hq. change (remaining 0) with 12%nat in Hi. lia.
Qed.

(** *** The address match *)

Lemma isWhiteSpace_lowerChar c : isWhiteSpace (lowerChar c) = isWhiteSpace c.
Proof. destruct c as [[] [] [] [] [] [] [] []]; reflexivity. Qed.

Lemma allWhiteSpace_toLowerCase s :
  allWhiteSpace (toLowerCase s) = allWhiteSpace s.
Proof.
  induction s as [|c s IH]; simpl; [reflexivity|].
  rewrite isWhiteSpace_lowerChar, IH. reflexivity.
Qed.

Lemma trim_blank s : allWhiteSpace s = true -> trim s = "".
Proof.
  intros H. apply truthy_empty. rewrite truthy_trim, H. reflexivity.
Qed.

Lemma includes_empty s : includes s "" = true.
Proof. destruct s; reflexivity. Qed.

Lemma addressMatches_blank normalizedAddress (r : gmap string string) :
  allWhiteSpace (field r "address") = true ->
  addressMatches normalizedAddress r = true.
Proof.
  intros H. unfold addressMatches.
  rewrite trim_blank by (rewrite allWhiteSpace_toLowerCase; exact H).
  change (firstToken "") with "". rewrite includes_empty.
  apply orb_true_r.
Qed.

(** X17. A contact row whose address is missing or blank matches every
    listing: when it is the first row, every listing with a string
    address receives its owner fields. *)
Theorem blank_contact_address_matches_every_listing
    (r : gmap string string) (rest : list (gmap string string))
    (l : gmap string JsValue) (addr : string) (n : nat) :
  allWhiteSpace (field r "address") = true ->
  l !! "address" = Some (JString addr) ->
  enrich (r :: rest) l n = Some (Return (withOwner l r), n).
Proof.
  intros Hr Ha. unfold enrich. rewrite Ha. simpl.
  rewrite (addressMatches_blank _ r Hr). reflexivity.
Qed.






(** *** The result file *)

Lemma lowerChar_idempotent c : lowerChar (lowerChar c) = lowerChar c.
Proof. destruct c as [[] [] [] [] [] [] [] []]; reflexivity. Qed.

Lemma normalizedKey_underscoreSpaces s : forall inRun,
  normalizedKey (underscoreSpaces (toLowerCase s) inRun) = true.
Proof.
  induction s as [|c s IH]; intros inRun; simpl; [reflexivity|].
  destruct (isWhiteSpace (lowerChar c)) eqn:E.
  - destruct inRun; simpl; apply IH.
  - simpl. rewrite E, lowerChar_idempotent, Ascii.eqb_refl. simpl. apply IH.
Qed.

Lemma tracerfyHeaders_normalized headerLine :
  Forall (fun k => normalizedKey k = true) (tracerfyHeaders headerLine).
Proof.
  unfold tracerfyHeaders. apply Forall_map, Forall_forall.
  intros h _. apply normalizedKey_underscoreSpaces.
Qed.

Lemma zipRow_keys headers k : forall index values (row : gmap string string),
  is_Some (zipRow headers index values row !! k) ->
  k ∈ headers \/ is_Some (row !! k).
Proof.
  induction headers as [|header rest IH]; intros index values row H;
    simpl in *; [right; exact H|].
  destruct (IH _ _ _ H) as [Hin | Hrow]; [left; right; exact Hin|].
  destruct (objSet_lookup header (valueAt values index) row k)
    as [E | [-> _]].
  - right. rewrite <- E. exact Hrow.
  - left. left.
Qed.

Lemma rowOfLine_keys headers line k :
  is_Some (rowOfLine headers line !! k) -> k ∈ headers.
Proof.
  intros H. destruct (zipRow_keys _ _ _ _ _ H) as [Hin | Hrow];
    [exact Hin|].
  rewrite lookup_empty in Hrow. destruct Hrow as [? [=]].
Qed.

Lemma tracerfy_fold headers lines : forall acc : list (gmap string string),
  fold_left (fun (results : list (gmap string string)) line =>
               (results ++ [rowOfLine headers line])%list) lines acc
  = (acc ++ map (rowOfLine headers) lines)%list.
Proof.
  induction lines as [|line rest IH]; intros acc; simpl.
  - rewrite app_nil_r. reflexivity.
  - rewrite IH, <- app_assoc. reflexivity.
Qed.

(** X19. [parseTracerfyResults] returns one row for each non-blank line
    after the header, and no key of a row holds white space or an
    upper-case letter. *)
Theorem parseTracerfyResults_rows (csvText : string) :
  length (parseTracerfyResults csvText)
  = pred (length (nonBlankLines csvText)) /\
  Forall (fun row : gmap string string =>
            forall k, is_Some (row !! k) -> normalizedKey k = true)
         (parseTracerfyResults csvText).
Proof.
  unfold parseTracerfyResults.
  destruct (nonBlankLines csvText) as [|headerLine [|l1 rest]];
    [split; [reflexivity | constructor]
    |split; [reflexivity | constructor] |].
  rewrite tracerfy_fold, List.app_nil_l. split.
  - rewrite length_map. reflexivity.
  - apply Forall_map, Forall_forall. intros line _ k Hk.
    apply rowOfLine_keys in Hk.
    pose proof (tracerfyHeaders_normalized headerLine) as H.
    rewrite Forall_forall in H. apply H, Hk.
Qed.

(** ** The pipeline *)

Lemma sortInsert_perm {A} (compare : A -> A -> Q) x l :
  Permutation (sortInsert compare x l) (x :: l).
Proof.
  induction l as [|y l IH]; simpl; [reflexivity|].
  destruct (Qle_bool (compare x y) 0); [reflexivity|].
  rewrite IH. apply perm_swap.
Qed.

Lemma sort_perm {A} (compare : A -> A -> Q) l :
  Permutation (sort compare l) l.
Proof.
  induction l as [|x l IH]; simpl; [reflexivity|].
  rewrite sortInsert_perm, IH. reflexivity.
Qed.

Lemma outranks_trans a b c : outranks a b -> outranks b c -> outranks a c.
Proof.
  intros (sa & sb & Ha & Hb & Hab) (sb' & sc & Hb' & Hc & Hbc).
  rewrite Hb in Hb'. injection Hb' as <-.
  exists sa, sc. repeat split; try assumption.
  eapply Qle_trans; eassumption.
Qed.

Lemma Qminus_nonpos (x y : Q) : (x - y <= 0)%Q <-> (x <= y)%Q.
Proof.
  unfold Qminus. split; intros H.
  - apply (Qplus_le_l _ _ (- y)).
    rewrite Qplus_opp_r. exact H.
  - apply (Qplus_le_l _ _ (- y)) in H.
    rewrite Qplus_opp_r in H. exact H.
Qed.

Lemma sortInsert_sorted {A} (f : A -> gmap string JsValue) x l :
  scored (f x) -> Forall (fun y => scored (f y)) l ->
  StronglySorted (fun a b => outranks (f a) (f b)) l ->
  StronglySorted (fun a b => outranks (f a) (f b))
                 (sortInsert (byScore f) x l).
Proof.
  intros [sx Hx] Hl Hs. induction Hs as [|y l Hs IH Hy]; simpl.
  - constructor; constructor.
  - inversion Hl as [|? ? [sy Hsy] Hl']; subst.
    unfold byScore at 1. rewrite Hx, Hsy.
    destruct (Qle_bool (sy - sx) 0) eqn:E.
    + assert (Hxy : outranks (f x) (f y)).
      { exists sx, sy. repeat split; try assumption.
        apply Qminus_nonpos, Qle_bool_iff, E. }
      constructor; [constructor; assumption|].
      constructor; [exact Hxy|].
      eapply Forall_impl; [exact Hy|].
      intros z Hz. eapply outranks_trans; eassumption.
    + constructor; [apply IH, Hl'|].
      assert (Hyx : outranks (f y) (f x)).
      { exists sy, sx. repeat split; try assumption.
        apply Qnot_lt_le. intros Hlt.
        assert (Hle : (sy - sx <= 0)%Q)
          by (apply Qminus_nonpos, Qlt_le_weak, Hlt).
        apply Qle_bool_iff in Hle. congruence. }
      rewrite (sortInsert_perm (byScore f) x l).
      constructor; assumption.
Qed.

Lemma sort_sorted {A} (f : A -> gmap string JsValue) l :
  Forall (fun y => scored (f y)) l ->
  StronglySorted (fun a b => outranks (f a) (f b)) (sort (byScore f) l).
Proof.
  induction 1 as [|x l Hx Hl IH]; simpl; [constructor|].
  apply sortInsert_sorted; [exact Hx | | exact IH].
  rewrite sort_perm. exact Hl.
Qed.

Lemma sortInsert_stable {A} (f : A -> gmap string JsValue) q x l :
  scored (f x) -> Forall (fun y => scored (f y)) l ->
  List.filter (fun z => scoresExactly q (f z)) (sortInsert (byScore f) x l)
  = List.filter (fun z => scoresExactly q (f z)) (x :: l).
Proof.
  intros [sx Hx] Hl. set (P := fun z => scoresExactly q (f z)).
  assert (Px : P x = Qeq_bool sx q)
    by (unfold P, scoresExactly; rewrite Hx; reflexivity).
  induction Hl as [|y l [sy Hy] Hl IH]; [reflexivity|].
  assert (Py : P y = Qeq_bool sy q)
    by (unfold P, scoresExactly; rewrite Hy; reflexivity).
  simpl sortInsert. unfold byScore at 1. rewrite Hx, Hy.
  destruct (Qle_bool (sy - sx) 0) eqn:E; [reflexivity|].
  simpl List.filter in *. rewrite IH, Px, Py.
  destruct (Qeq_bool sy q) eqn:Ey, (Qeq_bool sx q) eqn:Ex; try reflexivity.
  exfalso. apply Qeq_bool_iff in Ey, Ex.
  assert (Hle : (sy - sx <= 0)%Q).
  { apply Qminus_nonpos. rewrite Ey, Ex. apply Qle_refl. }
  apply Qle_bool_iff in Hle. congruence.
Qed.

Lemma sort_stable {A} (f : A -> gmap string JsValue) q l :
  Forall (fun y => scored (f y)) l ->
  List.filter (fun z => scoresExactly q (f z)) (sort (byScore f) l)
  = List.filter (fun z => scoresExactly q (f z)) l.
Proof.
  induction 1 as [|x l Hx Hl IH]; [reflexivity|].
  simpl sort. rewrite sortInsert_stable;
    [|exact Hx | rewrite sort_perm; exact Hl].
  simpl. rewrite IH. reflexivity.
Qed.

Lemma elem_of_skipn {A} (n : nat) (l : list A) b :
  b ∈ skipn n l -> b ∈ l.
Proof.
  revert l. induction n as [|n IH]; intros l H; [exact H|].
  destruct l as [|x l]; [exact H|]. right. apply IH, H.
Qed.

Lemma elem_of_firstn {A} (n : nat) (l : list A) b :
  b ∈ firstn n l -> b ∈ l.
Proof.
  revert l. induction n as [|n IH]; intros l H; [inversion H|].
  destruct l as [|x l]; [inversion H|]. simpl in H.
  apply elem_of_cons in H as [-> | H]; [left | right; apply IH, H].
Qed.

Lemma top_outranks_rest {A} (R : A -> A -> Prop) (n : nat) (l : list A) :
  StronglySorted R l ->
  forall a b, a ∈ firstn n l -> b ∈ skipn n l -> R a b.
Proof.
  intros Hs. revert n. induction Hs as [|x l Hs IH Hx]; intros n a b Ha Hb.
  - destruct n; simpl in Ha; inversion Ha.
  - destruct n as [|n]; simpl in Ha, Hb; [inversion Ha|].
    apply elem_of_cons in Ha as [-> | Ha].
    + rewrite Forall_forall in Hx. apply Hx.
      eapply elem_of_skipn, Hb.
    + eapply IH; eassumption.
Qed.

(** X20. For listings with numeric scores, [sortedByScore] is a
    permutation of the listings in descending order of score that keeps
    the order of listings with equal scores; the first 20 and the rest
    make up the whole, and none of the rest outranks one of the first 20. *)
Theorem ranking_sorts_by_score (listings : list (gmap string JsValue)) :
  Forall scored listings ->
  let sortedByScore := sort (byScore id) listings in
  Permutation sortedByScore listings /\
  StronglySorted outranks sortedByScore /\
  (forall q, List.filter (scoresExactly q) sortedByScore
             = List.filter (scoresExactly q) listings) /\
  (firstn 20 sortedByScore ++ skipn 20 sortedByScore)%list = sortedByScore /\
  (forall a b, a ∈ firstn 20 sortedByScore -> b ∈ skipn 20 sortedByScore ->
               outranks a b).
Proof.
  intros Hscored sortedByScore.
  assert (Hs : StronglySorted outranks sortedByScore)
    by exact (sort_sorted id listings Hscored).
  split; [apply sort_perm|]. split; [exact Hs|].
  split; [intros q; exact (sort_stable id q listings Hscored)|].
  split; [apply firstn_skipn|].
  apply top_outranks_rest, Hs.
Qed.

(** *** One file *)

Lemma scoreListings_facts h file listings :
  Forall (fun o : gmap string JsValue =>
            o !! "csvFilename" = Some (JString file) /\ scored o)
         (scoreListings h file listings).
Proof.
  unfold scoreListings. apply Forall_map, Forall_forall. intros l _.
  split; [reflexivity|]. eexists. reflexivity.
Qed.

Lemma enrichedFrom_keeps (l l' : gmap string JsValue) k :
  enrichedFrom l l' -> k ∉ ownerFields -> l' !! k = l !! k.
Proof.
  intros [-> | [m ->]] Hk; [reflexivity | apply withOwner_frame, Hk].
Qed.

Lemma enriched_facts file (ls out : list (gmap string JsValue)) :
  Forall2 enrichedFrom ls out ->
  Forall (fun o : gmap string JsValue =>
            o !! "csvFilename" = Some (JString file) /\ scored o) ls ->
  Forall (fun o : gmap string JsValue =>
            o !! "csvFilename" = Some (JString file) /\ scored o) out.
Proof.
  induction 1 as [|l l' ls out Hl _ IH]; intros Hls; [constructor|].
  inversion Hls as [|? ? [Hf Hs] Hls']; subst.
  constructor; [|apply IH, Hls'].
  split.
  - rewrite (enrichedFrom_keeps l l' "csvFilename" Hl); [exact Hf|].
    unfold ownerFields. rewrite !not_elem_of_cons.
    repeat split; try discriminate. apply not_elem_of_nil.
  - unfold scored, urgencyScoreOf in *.
    rewrite (enrichedFrom_keeps l l' "urgencyScore" Hl); [exact Hs|].
    unfold ownerFields. rewrite !not_elem_of_cons.
    repeat split; try discriminate. apply not_elem_of_nil.
Qed.

Lemma awaitSkipTrace_returns net ls :
  exists out, awaitSkipTrace net ls = Some out /\ Forall2 enrichedFrom ls out.
Proof.
  destruct (skipTrace_outcome net ls) as [out [n [E [_ H]]]].
  exists out. unfold awaitSkipTrace. rewrite E. split; [reflexivity | exact H].
Qed.

Lemma analyzeTop_fst analyze top : forall calls,
  map fst (analyzeTop analyze calls top) = top.
Proof.
  induction top as [|l top IH]; intros calls; simpl; [reflexivity|].
  rewrite IH. reflexivity.
Qed.

Lemma analyzeTop_length analyze top calls :
  length (analyzeTop analyze calls top) = length top.
Proof.
  rewrite <- (analyzeTop_fst analyze top calls) at 2.
  symmetry. apply length_map.
Qed.

Lemma processFile_outcome env file csvText p :
  exists new enriched,
    processFile env file csvText p
    = Some {| totalListings := totalListings p + length (parseCSV csvText);
              allProcessedListings := allProcessedListings p ++ new;
              storeCalls := storeCalls p ++ new;
              claudeCalls :=
                claudeCalls p + length (firstn 20 (map fst new)) |} /\
    Forall2 enrichedFrom
      (scoreListings (host env) file (parseCSV csvText)) enriched /\
    map fst new = sort (byScore id) enriched /\
    Forall (fun x : Analyzed => x.2 = notAnalyzed) (skipn 20 new) /\
    Forall (fromFile file) new.
Proof.
  set (scoredListings := scoreListings (host env) file (parseCSV csvText)).
  assert (Henr : exists enriched,
            (if TRACERFY_API_KEY env
             then awaitSkipTrace (tracerfy env) scoredListings
             else Some scoredListings) = Some enriched /\
            Forall2 enrichedFrom scoredListings enriched).
  { destruct (TRACERFY_API_KEY env).
    - apply awaitSkipTrace_returns.
    - exists scoredListings. split; [reflexivity | apply enrichedFrom_refl]. }
  destruct Henr as [enriched [E Hfrom]].
  set (sorted := sort (byScore id) enriched).
  exists (analyzeTop (claude env) (claudeCalls p) (firstn 20 sorted) ++
          map (fun listing => (listing, notAnalyzed)) (skipn 20 sorted))%list,
         enriched.
  assert (Hfst : map fst
            (analyzeTop (claude env) (claudeCalls p) (firstn 20 sorted) ++
             map (fun listing => (listing, notAnalyzed)) (skipn 20 sorted))
            = sorted).
  { rewrite map_app, analyzeTop_fst, map_map. simpl.
    rewrite map_id. apply firstn_skipn. }
  split; [|split; [exact Hfrom | split; [exact Hfst | split]]].
  - unfold processFile. fold scoredListings. rewrite E. simpl.
    fold sorted. rewrite Hfst. reflexivity.
  - rewrite skipn_app.
    rewrite (skipn_all2 (analyzeTop _ _ _))
      by (rewrite analyzeTop_length; apply firstn_le_length).
    rewrite List.app_nil_l. apply Forall_forall. intros x Hx.
    apply elem_of_skipn in Hx. apply list_elem_of_fmap in Hx as [o [-> _]].
    reflexivity.
  - assert (Hfacts : Forall (fun o : gmap string JsValue =>
                o !! "csvFilename" = Some (JString file) /\ scored o) sorted).
    { unfold sorted. rewrite sort_perm.
      eapply enriched_facts; [exact Hfrom | apply scoreListings_facts]. }
    rewrite <- Hfst in Hfacts. apply Forall_map in Hfacts. exact Hfacts.
Qed.

Lemma processFile_counts env file csvText
    (new : list Analyzed) enriched :
  Forall2 enrichedFrom
    (scoreListings (host env) file (parseCSV csvText)) enriched ->
  map fst new = sort (byScore id) enriched ->
  length new = length (parseCSV csvText).
Proof.
  intros Hfrom Hfst.
  transitivity (length (map fst new)); [symmetry; apply length_map|].
  rewrite Hfst.
  rewrite (Permutation_length (sort_perm _ _)).
  rewrite <- (Forall2_length _ _ _ Hfrom).
  unfold scoreListings. apply length_map.
Qed.

(** X21. For a file that was read, the listings handed to
    [storeIntelligence] are, one for one, the scored listings of
    [parseCSV] as the skip trace left them, in descending order of score
    and with the file's name; the listings after the 20th carry the
    placeholder analysis, and at most 20 calls of the analysis are made. *)
Theorem file_listings_are_stored_in_rank_order
    (env : Env) (file csvText : string) (p : Progress) :
  exists p' new enriched,
    processFile env file csvText p = Some p' /\
    storeCalls p' = (storeCalls p ++ new)%list /\
    totalListings p' = (totalListings p + length new)%nat /\
    length new = length (parseCSV csvText) /\
    Forall2 enrichedFrom
      (scoreListings (host env) file (parseCSV csvText)) enriched /\
    Permutation (map fst new) enriched /\
    StronglySorted outranks (map fst new) /\
    Forall (fromFile file) new /\
    Forall (fun x : Analyzed => x.2 = notAnalyzed) (skipn 20 new) /\
    (claudeCalls p' <= claudeCalls p + 20)%nat.
Proof.
  destruct (processFile_outcome env file csvText p)
    as (new & enriched & E & Hfrom & Hfst & Hrest & Hfile).
  pose proof (processFile_counts env file csvText new enriched Hfrom Hfst)
    as Hlen.
  eexists _, new, enriched. split; [exact E|]. simpl.
  split; [reflexivity|]. split; [rewrite Hlen; reflexivity|].
  split; [exact Hlen|]. split; [exact Hfrom|].
  split; [rewrite Hfst; apply sort_perm|]. split.
  - rewrite Hfst. apply (sort_sorted id).
    rewrite <- (sort_perm (byScore id)), <- Hfst.
    apply Forall_map. eapply Forall_impl; [exact Hfile|].
    intros x [_ Hs]. exact Hs.
  - split; [exact Hfile|]. split; [exact Hrest|].
    pose proof (firstn_le_length 20 (map fst new)). lia.
Qed.

(** *** The run *)

Lemma processFiles_accounted env files : forall rest p,
  (forall file, file ∈ rest -> file ∈ files) ->
  accounted files p ->
  accounted files (processFiles env rest p).1.
Proof.
  induction rest as [|file rest IH]; intros p Hsub Hp; simpl; [exact Hp|].
  assert (Hrest : forall f, f ∈ rest -> f ∈ files)
    by (intros f Hf; apply Hsub; right; exact Hf).
  destruct (R2_get env file) as [| |csvText];
    [exact Hp | apply IH; assumption|].
  destruct (processFile_outcome env file csvText p)
    as (new & enriched & E & Hfrom & Hfst & _ & Hfile).
  rewrite E. apply IH; [exact Hrest|].
  destruct Hp as (Hall & Htotal & Hstored).
  unfold accounted; simpl. split; [rewrite Hall; reflexivity|]. split.
  - rewrite length_app, Htotal.
    rewrite (processFile_counts env file csvText new enriched Hfrom Hfst).
    reflexivity.
  - apply Forall_app. split; [exact Hstored|].
    eapply Forall_impl; [exact Hfile|].
    intros x Hx. exists file. split; [apply Hsub; left | exact Hx].
Qed.

Lemma accounted_start files :
  accounted files
    {| totalListings := 0; allProcessedListings := [];
       storeCalls := []; claudeCalls := 0 |}.
Proof. repeat split. constructor. Qed.

Lemma elem_of_csvFilesOf keys key :
  key ∈ csvFilesOf keys <-> key ∈ keys /\ endsWith key ".csv" = true.
Proof.
  unfold csvFilesOf.
  rewrite list_elem_of_In, List.filter_In, <- list_elem_of_In. reflexivity.
Qed.

Lemma elem_of_processedFilesOf results s :
  s ∈ processedFilesOf results <-> Some s ∈ results /\ s <> "".
Proof.
  unfold processedFilesOf. rewrite elem_of_list_to_set, list_elem_of_omap.
  split.
  - intros [[x|] [Hx Hs]]; [|discriminate].
    destruct (truthy x) eqn:E; [|discriminate]. injection Hs as ->.
    split; [exact Hx | apply truthy_nonempty, E].
  - intros [Hs Hne]. exists (Some s). split; [exact Hs|].
    apply truthy_nonempty in Hne. rewrite Hne. reflexivity.
Qed.

Lemma endsWith_nonempty key : endsWith key ".csv" = true -> key <> "".
Proof. intros H ->. discriminate. Qed.

Lemma elem_of_newFilesOf keys results key :
  key ∈ newFilesOf (csvFilesOf keys) (processedFilesOf results) <->
  key ∈ keys /\ endsWith key ".csv" = true /\ Some key ∉ results.
Proof.
  unfold newFilesOf. rewrite list_elem_of_In, List.filter_In.
  rewrite <- list_elem_of_In, elem_of_csvFilesOf.
  rewrite negb_true_iff, bool_decide_eq_false, elem_of_processedFilesOf.
  split.
  - intros [[Hk He] Hn]. repeat split; try assumption.
    intros Hs. apply Hn. split; [exact Hs | apply endsWith_nonempty, He].
  - intros (Hk & He & Hn). repeat split; try assumption.
    intros [Hs _]. apply Hn, Hs.
Qed.

Lemma run_outcome env :
  processExpiredListings env = nothingDone \/
  processExpiredListings env = failedRun [] \/
  exists keys results p ok,
    R2_list env = Some keys /\ DB_processed env = Some results /\
    processFiles env
      (newFilesOf (csvFilesOf keys) (processedFilesOf results)) startProgress
    = (p, ok) /\
    stored (processExpiredListings env) = storeCalls p /\
    rethrown (processExpiredListings env) = negb ok /\
    slack (processExpiredListings env)
    = if ok
      then Some (firstn 10 (sort (byScore fst) (allProcessedListings p)),
                 totalListings p)
      else None.
Proof.
  unfold processExpiredListings.
  destruct (R2_list env) as [keys|]; [|right; left; reflexivity].
  destruct (csvFilesOf keys) as [|k ks] eqn:Ecsv; [left; reflexivity|].
  destruct (DB_processed env) as [results|]; [|right; left; reflexivity].
  destruct (newFilesOf (k :: ks) (processedFilesOf results))
    as [|f fs] eqn:Enew;
    [left; reflexivity|].
  right; right. fold startProgress.
  destruct (processFiles env (f :: fs) startProgress) as [p ok] eqn:Ep.
  exists keys, results, p, ok. rewrite Ecsv, Enew.
  destruct ok; repeat split; assumption.
Qed.

(** X22. Whatever a run hands to [storeIntelligence] carries the name of
    an object of the bucket that ends in [.csv] and is not among the
    processed file names. *)
Theorem stored_listings_come_from_new_files (env : Env) (x : Analyzed) :
  x ∈ stored (processExpiredListings env) ->
  exists keys results file,
    R2_list env = Some keys /\ DB_processed env = Some results /\
    file ∈ keys /\ endsWith file ".csv" = true /\ (Some file ∉ results) /\
    x.1 !! "csvFilename" = Some (JString file).
Proof.
  intros Hx.
  destruct (run_outcome env) as [E | [E | (keys & results & p & ok & Hk & Hr
                                             & Hp & Hs & _)]];
    [rewrite E in Hx; inversion Hx | rewrite E in Hx; inversion Hx |].
  rewrite Hs in Hx.
  pose proof (processFiles_accounted env
                (newFilesOf (csvFilesOf keys) (processedFilesOf results)) _
                startProgress (fun f Hf => Hf) (accounted_start _)) as Hacc.
  rewrite Hp in Hacc. simpl in Hacc. destruct Hacc as (_ & _ & Hall).
  rewrite Forall_forall in Hall.
  destruct (Hall x Hx) as (file & Hfile & Hcsv & _).
  apply elem_of_newFilesOf in Hfile as (Hin & Hend & Hnew).
  exists keys, results, file. repeat split; assumption.
Qed.

Lemma no_elements_nil {A} (l : list A) : (forall x, x ∉ l) -> l = [].
Proof.
  destruct l as [|x l]; [reflexivity|]. intros H. exfalso. apply (H x). left.
Qed.

(** X23. When every [.csv] object of the bucket is among the processed
    file names, the run stores nothing, sends no summary and does not
    fail. *)
Theorem processed_files_are_skipped (env : Env) (keys : list string)
    (results : list (option string)) :
  R2_list env = Some keys -> DB_processed env = Some results ->
  (forall key, key ∈ keys -> endsWith key ".csv" = true ->
               Some key ∈ results) ->
  processExpiredListings env = nothingDone.
Proof.
  intros Hk Hr Hall. unfold processExpiredListings. rewrite Hk.
  destruct (csvFilesOf keys) as [|k ks] eqn:Ecsv; [reflexivity|].
  rewrite Hr, <- Ecsv.
  rewrite (no_elements_nil (newFilesOf _ _)); [reflexivity|].
  intros key Hkey. apply elem_of_newFilesOf in Hkey as (Hin & Hend & Hnew).
  apply Hnew, Hall; assumption.
Qed.

(** X24. When a run sends the Slack summary, it did not fail, the count
    it reports is the number of listings handed to [storeIntelligence],
    and the listings it reports are the 10 best of them (all when there
    are fewer) in descending order of score. *)
Theorem slack_summary_accounts_for_the_run (env : Env)
    (top : list Analyzed) (total : nat) :
  slack (processExpiredListings env) = Some (top, total) ->
  rethrown (processExpiredListings env) = false /\
  total = length (stored (processExpiredListings env)) /\
  length top = Nat.min 10 total /\
  StronglySorted outranks (map fst top) /\
  (forall x, x ∈ top -> x ∈ stored (processExpiredListings env)) /\
  (forall a b, a ∈ top -> b ∈ stored (processExpiredListings env) ->
               b ∉ top -> outranks a.1 b.1).
Proof.
  intros Hslack.
  destruct (run_outcome env) as [E | [E | (keys & results & p & ok & Hk & Hr
                                             & Hp & Hs & Hre & Hsl)]];
    [rewrite E in Hslack; discriminate | rewrite E in Hslack; discriminate |].
  rewrite Hsl in Hslack. destruct ok; [|discriminate].
  injection Hslack as <- <-.
  pose proof (processFiles_accounted env
                (newFilesOf (csvFilesOf keys) (processedFilesOf results)) _
                startProgress (fun f Hf => Hf) (accounted_start _)) as Hacc.
  rewrite Hp in Hacc. simpl in Hacc. destruct Hacc as (Hall & Htotal & Hfrom).
  rewrite Hs, Hre, Hall. clear Hall.
  set (sorted := sort (byScore fst) (storeCalls p)).
  assert (Hperm : Permutation sorted (storeCalls p)) by apply sort_perm.
  assert (Hsorted : StronglySorted (fun a b : Analyzed => outranks a.1 b.1)
                                   sorted).
  { apply (sort_sorted fst). eapply Forall_impl; [exact Hfrom|].
    intros x (file & _ & _ & Hscored). exact Hscored. }
  split; [reflexivity|]. split; [exact Htotal|].
  split; [rewrite length_firstn, (Permutation_length Hperm), Htotal;
          reflexivity|].
  split; [|split].
  - assert (Htop : StronglySorted (fun a b : Analyzed => outranks a.1 b.1)
                                  (firstn 10 sorted)).
    { clear Hperm. generalize 10%nat as n.
      induction Hsorted as [|x l Hl IH Hx]; intros [|n]; simpl;
        try constructor; [apply IH|].
      apply Forall_forall. intros y Hy. rewrite Forall_forall in Hx.
      apply Hx. eapply elem_of_firstn, Hy. }
    induction Htop as [|x l Hl IH Hx]; simpl; constructor; [exact IH|].
    apply Forall_map. exact Hx.
  - intros x Hx. rewrite <- Hperm. eapply elem_of_firstn, Hx.
  - intros a b Ha Hb Hnot.
    apply (top_outranks_rest _ 10 sorted Hsorted a b Ha).
    rewrite <- Hperm, <- (firstn_skipn 10 sorted) in Hb.
    apply elem_of_app in Hb as [Hb | Hb]; [contradiction | exact Hb].
Qed.

(** ** The Slack summary *)

Lemma length_append s t :
  String.length (s ++ t) = (String.length s + String.length t)%nat.
Proof.
  induction s as [|c s IH]; [reflexivity|].
  rewrite append_cons. simpl. rewrite IH. reflexivity.
Qed.

Lemma length_substring_0 n s : (String.length (substring 0 n s) <= n)%nat.
Proof.
  revert s. induction n as [|n IH]; intros [|c s]; simpl; try lia.
  specialize (IH s). lia.
Qed.

Lemma substring_0_short n s :
  (String.length s <= n)%nat -> substring 0 n s = s.
Proof.
  revert s. induction n as [|n IH]; intros [|c s] H; simpl in *;
    try reflexivity; try lia.
  rewrite IH by lia. reflexivity.
Qed.

Lemma angleText_within g angle :
  contextWithin g 204 (ContextBlock (angleText g angle)).
Proof.
  unfold contextWithin, angleText. rewrite !length_append.
  pose proof (length_substring_0 200 angle).
  destruct (200 <? String.length angle)%nat; simpl; lia.
Qed.

Lemma listingBlocks_shape g hostText i x :
  (2 <= length (listingBlocks g hostText i x) <= 3)%nat /\
  Forall (contextWithin g 204) (listingBlocks g hostText i x).
Proof.
  unfold listingBlocks.
  destruct (truthy _ && negb _); simpl; (split; [lia|]);
    repeat constructor. apply angleText_within.
Qed.

Lemma slackLoop_shape g hostText topListings : forall i blocks,
  (length blocks + 2 * length topListings
   <= length (slackLoop g hostText i topListings blocks)
   <= length blocks + 3 * length topListings)%nat /\
  (Forall (contextWithin g 204) blocks ->
   Forall (contextWithin g 204) (slackLoop g hostText i topListings blocks)).
Proof.
  induction topListings as [|x rest IH]; intros i blocks; simpl.
  - split; [lia | tauto].
  - destruct (IH (S i) (blocks ++ listingBlocks g hostText i x)%list)
      as [Hlen Hctx].
    destruct (listingBlocks_shape g hostText i x) as [Hl Hc].
    rewrite length_app in Hlen. split; [lia|].
    intros Hb. apply Hctx, Forall_app. split; assumption.
Qed.

(** X25. The Slack message has between [4 + 2n] and [4 + 3n] blocks for
    [n] listings, and the text of a context block is at most 204 code
    units longer than its pictograph. *)
Theorem slack_message_shape (g : Glyphs) (hostText : JsValue -> string)
    (topListings : list Analyzed) (totalCount : nat) :
  (4 + 2 * length topListings
   <= length (slackBlocks g hostText topListings totalCount)
   <= 4 + 3 * length topListings)%nat /\
  Forall (contextWithin g 204) (slackBlocks g hostText topListings totalCount).
Proof.
  unfold slackBlocks.
  match goal with
  | |- context [slackLoop g hostText 0 topListings ?b] =>
      destruct (slackLoop_shape g hostText topListings 0%nat b) as [Hlen Hctx]
  end.
  rewrite length_app. simpl in *. split; [lia|].
  apply Forall_app. split; [|repeat constructor].
  apply Hctx. repeat constructor.
Qed.

Lemma slack_top_length env top total :
  slack (processExpiredListings env) = Some (top, total) ->
  (length top <= 10)%nat.
Proof.
  intros Hslack.
  destruct (run_outcome env) as [E | [E | (keys & results & p & ok & _ & _
                                             & _ & _ & _ & Hsl)]];
    [rewrite E in Hslack; discriminate | rewrite E in Hslack; discriminate |].
  rewrite Hsl in Hslack. destruct ok; [|discriminate].
  injection Hslack as <- _. apply firstn_le_length.
Qed.

(** X26. The Slack message of a run has at most 34 blocks. *)
Theorem slack_message_of_a_run (env : Env) (g : Glyphs)
    (hostText : JsValue -> string) (top : list Analyzed) (total : nat) :
  slack (processExpiredListings env) = Some (top, total) ->
  (length (slackBlocks g hostText top total) <= 34)%nat.
Proof.
  intros Hslack. pose proof (slack_top_length env top total Hslack) as Hlen.
  unfold slackBlocks.
  match goal with
  | |- context [slackLoop g hostText 0 top ?b] =>
      destruct (slackLoop_shape g hostText top 0%nat b) as [Hshape _]
  end.
  rewrite length_app. simpl in *. lia.
Qed.

(** ** The added properties at concrete inputs *)

Lemma parseCSVLine_quote_free_witness :
  parseCSVLine "12, Main St ,Houston,180"
  = map trim (split comma "12, Main St ,Houston,180").
Proof. apply parseCSVLine_quote_free. reflexivity. Defined.

Lemma rowOfLine_lookup_witness :
  rowOfLine ["Street Number"; "DOM"; "City/Location"; "DOM"]
            "12,180,Houston,45" !! "DOM"
  = Some (valueAt (parseCSVLine "12,180,Houston,45") 3).
Proof.
  apply (rowOfLine_lookup ["Street Number"; "DOM"; "City/Location"] []
           "DOM" "12,180,Houston,45").
  - discriminate.
  - apply not_elem_of_nil.
Defined.

Lemma parseCSV_ignores_blank_lines_witness :
  parseCSV (sampleHeader ++ nl ++ "  " ++ nl ++ "12,Main St,Houston,180")
  = parseCSV (sampleHeader ++ nl ++ "12,Main St,Houston,180").
Proof.
  exact (proj1 (parseCSV_ignores_blank_lines sampleHeader "  "
                  "12,Main St,Houston,180" eq_refl)).
Defined.

Lemma csvRow_of_parsed_witness :
  parseCSVLine
    (csvRow (fun _ => "")
       (scoredListing (hd blankListing (parseCSV sampleCsv)) 1 "a.csv"))
  = ["12 Main St"; "Houston"; "TX"; ""; ""; ""; ""; ""; ""].
Proof.
  apply (csvRow_of_parsed (fun _ => "") sampleCsv).
  change (parseCSV sampleCsv) with [hd blankListing (parseCSV sampleCsv)].
  left.
Defined.

Lemma motivationPoints_monotone_witness :
  (motivationPoints 44 <= motivationPoints 45)%Q.
Proof. apply motivationPoints_monotone. lia. Defined.

Lemma pricePoints_antitone_witness :
  (pricePoints 250000 <= pricePoints 249999)%Q.
Proof. apply pricePoints_antitone; lia. Defined.

Lemma repeatFailurePoints_monotone_witness :
  (repeatFailurePoints 100 100 <= repeatFailurePoints 151 100)%Q.
Proof. apply repeatFailurePoints_monotone. lia. Defined.

Lemma score_never_rises_with_time_witness :
  (calculateUrgencyScore
     {| Date_now := Date_now hostJan16 + 5 * msPerDay;
        getFullYear := 2025; Date_parse := Date_parse_iso |}
     (withExpired "2025-01-14" blankListing)
   <= calculateUrgencyScore hostJan16
        (withExpired "2025-01-14" blankListing))%Q.
Proof.
  apply score_never_rises_with_time; [reflexivity | reflexivity |].
  vm_compute. discriminate.
Defined.

Lemma poll_stops_at_first_completion_witness :
  pollLoop thirdTimeNet (JNumber 7) pollFuel 0 JNull 0%nat
  = Some (Return (JString "https://files.example/r.csv"), 3%nat).
Proof.
  apply (poll_stops_at_first_completion thirdTimeNet (JNumber 7) 2).
  - lia.
  - intros [|[|i]] Hi; [reflexivity | reflexivity | lia].
  - reflexivity.
Defined.

Lemma only_twelve_status_responses_matter_witness :
  skipTraceWithTracerfy lateNet [oakListing] 0%nat
  = skipTraceWithTracerfy stalledNet [oakListing] 0%nat.
Proof.
  apply only_twelve_status_responses_matter; [reflexivity | reflexivity |].
  intros queueId i Hi. apply Nat.ltb_lt in Hi.
  unfold lateNet. cbn [queueStatus]. rewrite Hi. reflexivity.
Defined.

Lemma blank_contact_address_matches_every_listing_witness :
  enrich [anonymousRow; contactRow] oakListing 0%nat
  = Some (Return (withOwner oakListing anonymousRow), 0%nat).
Proof.
  apply (blank_contact_address_matches_every_listing anonymousRow
           [contactRow] oakListing "100 Oak St"); reflexivity.
Defined.


Lemma ranking_sorts_by_score_witness :
  Permutation (sort (byScore id) rankedSample) rankedSample /\
  StronglySorted outranks (sort (byScore id) rankedSample).
Proof.
  assert (H : Forall scored rankedSample)
    by (repeat constructor; eexists; reflexivity).
  destruct (ranking_sorts_by_score rankedSample H) as (H1 & H2 & _).
  split; [exact H1 | exact H2].
Defined.

Lemma hd_elem_of {A} (d : A) (l : list A) : l <> [] -> hd d l ∈ l.
Proof. destruct l; [congruence | intros _; left]. Defined.

Lemma stored_listings_come_from_new_files_witness :
  exists keys results file,
    R2_list sampleEnv = Some keys /\ DB_processed sampleEnv = Some results /\
    file ∈ keys /\ endsWith file ".csv" = true /\ (Some file ∉ results) /\
    (hd (∅, notAnalyzed) (stored (processExpiredListings sampleEnv))).1
      !! "csvFilename" = Some (JString file).
Proof.
  apply stored_listings_come_from_new_files.
  apply hd_elem_of. intros E. apply (f_equal length) in E.
  vm_compute in E. discriminate.
Defined.

Lemma processed_files_are_skipped_witness :
  processExpiredListings doneEnv = nothingDone.
Proof.
  eapply processed_files_are_skipped; [reflexivity | reflexivity |].
  intros key Hkey Hend.
  repeat (apply elem_of_cons in Hkey as [-> | Hkey];
          [first [discriminate Hend | left | right; left]|]).
  inversion Hkey.
Defined.

Lemma sampleEnv_slack :
  exists top total,
    slack (processExpiredListings sampleEnv) = Some (top, total).
Proof.
  assert (H : match slack (processExpiredListings sampleEnv) with
              | Some _ => true
              | None => false
              end = true) by (vm_compute; reflexivity).
  destruct (slack (processExpiredListings sampleEnv)) as [[top total]|];
    [exists top, total; reflexivity | discriminate].
Defined.

Lemma slack_summary_accounts_for_the_run_witness :
  rethrown (processExpiredListings sampleEnv) = false /\
  exists top total,
    slack (processExpiredListings sampleEnv) = Some (top, total) /\
    total = length (stored (processExpiredListings sampleEnv)) /\
    length top = Nat.min 10 total.
Proof.
  destruct sampleEnv_slack as (top & total & E).
  destruct (slack_summary_accounts_for_the_run sampleEnv top total E)
    as (H1 & H2 & H3 & _).
  split; [exact H1|]. exists top, total. repeat split; assumption.
Defined.

Lemma slack_message_of_a_run_witness :
  exists top total,
    slack (processExpiredListings sampleEnv) = Some (top, total) /\
    (length (slackBlocks
               {| houseGlyph := "H"; phoneGlyph := "P"; envelopeGlyph := "E";
                  warningGlyph := "W"; bulbGlyph := "B" |}
               (fun _ => "") top total) <= 34)%nat.
Proof.
  destruct sampleEnv_slack as (top & total & E). exists top, total.
  split; [exact E | eapply slack_message_of_a_run, E].
Defined.
